(** * The invite flow of the Snikket web portal ([snikket_web/invite.py])

    A shallow embedding of the request handlers [view], [register], [reset],
    [success] and [reset_success], of the two forms they use and of the part
    of wtforms / Flask-WTF that decides whether a form validates, followed by
    the properties of the flow.

    Handlers are written in a small state-and-exception monad: the state
    holds the browser session and a log of the calls made to the remote
    account client; an exception leaves the state as it was when raised,
    as in Python. *)

From Stdlib Require Import ZArith.
From stdpp Require Import base option list strings gmap.

Open Scope Z_scope.
Open Scope string_scope.

(** ** Exceptions and results *)

(** The exception classes that occur in the handlers.
    [ClientResponseError] is [aiohttp.ClientResponseError] with its
    [status]; [OtherError] stands for any exception of another class that
    the remote client may raise (a connection failure, say). *)
Inductive exn : Type :=
  | ClientResponseError (status : Z)
  | UnboundLocalError (name : string)
  | AttributeError (attr : string)
  | KeyError (key : string)
  | OtherError (cls : string).

Inductive result (A : Type) : Type :=
  | Returns (a : A)
  | Raises (e : exn).
Arguments Returns {A} a.
Arguments Raises {A} e.

(** ** Data model *)

(** Modelled from the spec: the invite record returned by
    [client.get_public_invite_by_id]; its class is declared in the client
    module, which is not part of this file's source.  The spec gives it an
    identifier, a domain, an optional [reset_localpart] and an XMPP URI;
    the handlers read the last three. *)
Record Invite : Type := mkInvite {
  invite_id : string;
  domain : string;
  reset_localpart : option string;
  xmpp_uri : string;
}.

Definition INVITE_SESSION_JID : string := "invite-session-jid".

(** ** Forms (wtforms 2.x, Flask-WTF) *)

(** The value a field holds after processing: [None], a string, or the
    boolean of a submit button. *)
Inductive Data : Type :=
  | DNone
  | DStr (s : string)
  | DBool (b : bool).

Definition Data_eqb (a b : Data) : bool :=
  match a, b with
  | DNone, DNone => true
  | DStr s, DStr t => bool_decide (s = t)
  | DBool x, DBool y => bool_decide (x = y)
  | _, _ => false
  end.

Inductive FieldKind : Type := StringField | PasswordField | SubmitField.

(** [InputRequired] and [EqualTo] are the two validators the source uses;
    [Custom] is any other validator that accepts or rejects the field's
    data with a message (for the fields a base class may declare). *)
Inductive Validator : Type :=
  | InputRequired
  | EqualTo (fieldname : string) (message : string)
  | Custom (accepts : Data -> bool) (message : string).

(** A field as declared in a form class. *)
Record UnboundField : Type := mkUnbound {
  uf_kind : FieldKind;
  uf_label : string;
  uf_validators : list Validator;
}.

(** A field of a form instance. *)
Record Field : Type := mkField {
  kind : FieldKind;
  label : string;
  validators : list Validator;
  raw_data : option (list string);
  data : Data;
  errors : list string;
}.

(** A form instance: its fields by name, in declaration order. *)
Definition Form : Type := list (string * Field).

(** The submitted form data, a multi-dict: pairs of name and value. *)
Definition MultiDict : Type := list (string * string).

Fixpoint getlist (formdata : MultiDict) (name : string) : list string :=
  match formdata with
  | [] => []
  | (k, v) :: rest =>
      if bool_decide (k = name) then v :: getlist rest name
      else getlist rest name
  end.

(** The value a text field takes from the form data: the first one
    submitted under its name, the empty string when there is none. *)
Definition first_value (formdata : MultiDict) (name : string) : string :=
  match getlist formdata name with
  | v :: _ => v
  | [] => ""
  end.

Inductive Method : Type := GET | HEAD | POST.

Record Request : Type := mkRequest {
  method : Method;
  request_form : MultiDict;
}.

(** Flask-WTF: a form is submitted when the request method is one of
    POST, PUT, PATCH, DELETE; the routes admit GET, HEAD and POST. *)
Definition is_submitted (req : Request) : bool :=
  match method req with
  | POST => true
  | GET | HEAD => false
  end.

(** [Field.process_formdata]: a string or password field takes the first
    submitted value, the empty string when none was submitted; a submit
    field is true unless the value is absent, empty or "false". *)
Definition process_formdata (k : FieldKind) (valuelist : list string) : Data :=
  match k with
  | StringField | PasswordField =>
      match valuelist with
      | v :: _ => DStr v
      | [] => DStr ""
      end
  | SubmitField =>
      match valuelist with
      | [] => DBool false
      | v :: _ => DBool (negb (bool_decide (v = "") || bool_decide (v = "false")))
      end
  end.

(** [Field.process]: without form data (request not submitted) the field
    keeps its default. *)
Definition process (formdata : option MultiDict) (name : string)
    (u : UnboundField) : Field :=
  match formdata with
  | None =>
      mkField (uf_kind u) (uf_label u) (uf_validators u) None
        (match uf_kind u with SubmitField => DBool false | _ => DNone end) []
  | Some fd =>
      let raw := getlist fd name in
      mkField (uf_kind u) (uf_label u) (uf_validators u) (Some raw)
        (process_formdata (uf_kind u) raw) []
  end.

(** The field of a given name, among the fields of a form instance or
    the declarations of a form class. *)
Fixpoint lookup_field {A : Type} (name : string) (fields : list (string * A))
    : option A :=
  match fields with
  | [] => None
  | (n, f) :: rest =>
      if bool_decide (n = name) then Some f else lookup_field name rest
  end.

Definition set_field (name : string) (f' : Field) (form : Form) : Form :=
  map (fun nf : string * Field =>
         if bool_decide (nf.1 = name) then (nf.1, f') else nf) form.

(** [InputRequired]: the raw data must hold a first value that is not
    empty. *)
Definition has_input (f : Field) : bool :=
  match raw_data f with
  | Some (v :: _) => negb (bool_decide (v = ""))
  | _ => false
  end.

Definition required_message : string := "This field is required.".

Definition invalid_field_name (fieldname : string) : string :=
  "Invalid field name '" +:+ fieldname +:+ "'.".

(** [Field._run_validation_chain]: the errors a field collects.  A failing
    [InputRequired] stops the chain (StopValidation); a failing [EqualTo]
    or [Custom] records its message and the chain goes on. *)
Fixpoint run_validation_chain (form : Form) (f : Field)
    (chain : list Validator) : list string :=
  match chain with
  | [] => []
  | InputRequired :: rest =>
      if has_input f then run_validation_chain form f rest
      else [required_message]
  | EqualTo fieldname message :: rest =>
      match lookup_field fieldname form with
      | None => invalid_field_name fieldname :: run_validation_chain form f rest
      | Some other =>
          if Data_eqb (data f) (data other)
          then run_validation_chain form f rest
          else message :: run_validation_chain form f rest
      end
  | Custom accepts message :: rest =>
      if accepts (data f) then run_validation_chain form f rest
      else message :: run_validation_chain form f rest
  end.

Definition with_errors (f : Field) (errs : list string) : Field :=
  mkField (kind f) (label f) (validators f) (raw_data f) (data f) errs.

(** [Field.validate]: the field's errors are replaced by those of its
    chain.  Validators read only the data of fields, which validation
    does not change, so the chain runs against the form as it was. *)
Definition validate_field (form : Form) (f : Field) : Field :=
  with_errors f (run_validation_chain form f (validators f)).

(** [Form.validate]: every field is validated; the form is valid when no
    field has an error. *)
Definition validate (form : Form) : bool * Form :=
  let form' := map (fun nf : string * Field => (nf.1, validate_field form nf.2)) form in
  (forallb (fun nf : string * Field => bool_decide (errors nf.2 = [])) form', form').

(** [FlaskForm.validate_on_submit]: validation runs only on a submitted
    request. *)
Definition validate_on_submit (req : Request) (form : Form) : bool * Form :=
  if is_submitted req then validate form else (false, form).

(** The fields of a form class: those of the base class that the class
    does not redeclare, then its own. *)
Definition class_fields (base own : list (string * UnboundField))
    : list (string * UnboundField) :=
  filter (fun nu => nu.1 ∉ own.*1) base ++ own.

(** Instantiating a form class in a request: Flask-WTF passes the
    request's form data when the request is submitted, none otherwise. *)
Definition instantiate (fields : list (string * UnboundField)) (req : Request)
    : Form :=
  let formdata := if is_submitted req then Some (request_form req) else None in
  map (fun nu : string * UnboundField => (nu.1, process formdata nu.1 nu.2)) fields.

Definition RegisterForm_own : list (string * UnboundField) :=
  [ ("localpart", mkUnbound StringField "Username" []);
    ("password", mkUnbound PasswordField "Password" []);
    ("password_confirm",
      mkUnbound PasswordField "Confirm password"
        [InputRequired; EqualTo "password" "The passwords must match."]);
    ("action_register", mkUnbound SubmitField "Create account" []) ].

Definition ResetForm_own : list (string * UnboundField) :=
  [ ("password", mkUnbound PasswordField "Password" []);
    ("password_confirm",
      mkUnbound PasswordField "Confirm password"
        [InputRequired; EqualTo "password" "The passwords must match."]);
    ("action_reset", mkUnbound SubmitField "Change password" []) ].

(** ** Responses *)

(** [url_for(endpoint, **values)]: the URL of an endpoint, kept symbolic
    (the routing table that turns it into a path belongs to the
    application). *)
Inductive Url : Type :=
  | url_for (endpoint : string) (values : list (string * string)).

Inductive TemplateArg : Type :=
  | AStr (s : string)
  | AInvite (i : Invite)
  | AForm (f : Form).

(** [render_template(name, **context)]: the page to render; the template
    engine is outside the flow. *)
Inductive Page : Type :=
  | render_template (name : string) (context : list (string * TemplateArg)).

(** What a handler returns: a redirect, a [quart.Response] with headers,
    a pair of body and status, or a bare body. *)
Inductive Response : Type :=
  | redirect (location : Url)
  | quart_Response (body : Page) (headers : list (string * string))
  | body_status (body : Page) (status : Z)
  | body_only (body : Page).

(** The headers a handler sets on its response. *)
Definition headers_of (r : Response) : list (string * string) :=
  match r with
  | quart_Response _ h => h
  | redirect _ | body_status _ _ | body_only _ => []
  end.

(** ** The world of a request and the handler monad *)

(** A call made to the remote account client. *)
Inductive Call : Type :=
  | CallGetInvite (id_ : string)
  | CallRegister (username password : Data) (token : string).

(** The state a handler acts on: the browser session and the log of
    remote calls made so far (oldest first). *)
Record World : Type := mkWorld {
  http_session : gmap string string;
  remote_calls : list Call;
}.

Definition M (A : Type) : Type := World -> result A * World.

#[global] Instance M_ret : MRet M := fun A a w => (Returns a, w).

#[global] Instance M_bind : MBind M := fun A B f m w =>
  match m w with
  | (Returns a, w') => f a w'
  | (Raises e, w') => (Raises e, w')
  end.

Definition raise {A : Type} (e : exn) : M A := fun w => (Raises e, w).

(** [try: body / except: handler]; the handler sees every exception and
    re-raises those its [except] clause does not name. *)
Definition try_except {A : Type} (body : M A) (handler : exn -> M A) : M A :=
  fun w =>
    match body w with
    | (Raises e, w') => handler e w'
    | r => r
    end.

(** Where a block may [return] from the handler or fall through to the
    statements after it. *)
Inductive Flow (R A : Type) : Type :=
  | Return (r : R)
  | Continue (a : A).
Arguments Return {R A} r.
Arguments Continue {R A} a.

(** Reading a local variable that may not have been assigned. *)
Definition load_local {A : Type} (name : string) (v : option A) : M A :=
  match v with
  | Some a => mret a
  | None => raise (UnboundLocalError name)
  end.

(** [http_session[key] = value] and [http_session.get(key, default)]. *)
Definition session_set (key value : string) : M unit := fun w =>
  (Returns tt, mkWorld (<[key := value]> (http_session w)) (remote_calls w)).

Definition session_get (key fallback : string) : M string := fun w =>
  (Returns (default fallback (http_session w !! key)), w).

(** [form.<name>]: the fields of a form are its attributes. *)
Definition getattr (form : Form) (name : string) : M Field :=
  match lookup_field name form with
  | Some f => mret f
  | None => raise (AttributeError name)
  end.

(** [form.<name>.errors.append(message)] *)
Definition append_error (form : Form) (name message : string) : M Form :=
  f ← getattr form name;
  mret (set_field name (with_errors f (errors f ++ [message])) form).

(** The remote account client: what each call answers. *)
Record Client : Type := mkClient {
  invite_answer : string -> result Invite;
  register_answer : Data -> Data -> string -> result string;
}.

(** The double quote character of the [Link] header. *)
Definition dquote : string := String (Ascii.ascii_of_nat 34) EmptyString.

(** ** The handlers *)

Section Handlers.

(** The remote account client of the application. *)
Variable client : Client.

(** The fields [BaseForm] declares ([.infra], not part of this file's
    source); both forms inherit them. *)
Variable BaseForm_fields : list (string * UnboundField).

(** [current_app.config], filled in by the application factory. *)
Variable config : gmap string string.

(** [urllib.parse.urlencode] *)
Variable urlencode : list (string * string) -> string.

(** [await client.get_public_invite_by_id(id_)] *)
Definition get_public_invite_by_id (id_ : string) : M Invite := fun w =>
  (invite_answer client id_,
   mkWorld (http_session w) (remote_calls w ++ [CallGetInvite id_])).

(** [await client.register_with_token(username=, password=, token=)] *)
Definition register_with_token (username password : Data) (token : string)
    : M string := fun w =>
  (register_answer client username password token,
   mkWorld (http_session w)
     (remote_calls w ++ [CallRegister username password token])).

(** [current_app.config[key]] *)
Definition config_get (key : string) : M string :=
  match config !! key with
  | Some v => mret v
  | None => raise (KeyError key)
  end.

Definition RegisterForm (req : Request) : Form :=
  instantiate (class_fields BaseForm_fields RegisterForm_own) req.

Definition ResetForm (req : Request) : Form :=
  instantiate (class_fields BaseForm_fields ResetForm_own) req.

Definition view_old (id_ : string) : M Response :=
  mret (redirect (url_for ".view" [("id_", id_)])).

Definition view (id_ : string) : M Response :=
  fetched ← try_except
    (invite ← get_public_invite_by_id id_;
     mret (Continue invite))
    (fun exc =>
       match exc with
       | ClientResponseError status =>
           if (status =? 404)%Z then
             mret (Return (body_status (render_template "invite_invalid.html" []) 404))
           else raise exc
       | _ => raise exc
       end);
  match fetched with
  | Return r => mret r
  | Continue invite =>
      match reset_localpart invite with
      | Some localpart =>
          mret (body_only
            (render_template "invite_reset_view.html"
               [("invite", AInvite invite);
                ("invite_id", AStr id_);
                ("account_jid", AStr (localpart +:+ "@" +:+ domain invite))]))
      | None =>
          let play_store_url :=
            "market://details?" +:+
            urlencode
              [("id", "org.snikket.android");
               ("referrer", xmpp_uri invite);
               ("pcampaignid",
                "pcampaignidMKT-Other-global-all-co-prtnr-py-" +:+
                "PartBadge-Mar2515-1")] in
          apple_store_url ← config_get "APPLE_STORE_URL";
          let body :=
            render_template "invite_view.html"
              [("invite", AInvite invite);
               ("play_store_url", AStr play_store_url);
               ("apple_store_url", AStr apple_store_url);
               ("f_droid_url", AStr "market://details?id=org.snikket.android");
               ("invite_id", AStr id_)] in
          mret (quart_Response body
            [("Link",
              "<" +:+ xmpp_uri invite +:+ "> rel=" +:+ dquote +:+ "alternate" +:+ dquote)])
      end
  end.

(** In [register] and [reset] the [except] clause of the fetch returns
    on status 404 and otherwise ends without raising: control falls
    through to the statements after the [try] with [invite] never
    assigned. *)
Definition register (req : Request) (id_ : string) : M Response :=
  fetched ← try_except
    (invite ← get_public_invite_by_id id_;
     mret (Continue (Some invite)))
    (fun exc =>
       match exc with
       | ClientResponseError status =>
           if (status =? 404)%Z then
             mret (Return (redirect (url_for ".view" [("id_", id_)])))
           else mret (Continue None)
       | _ => raise exc
       end);
  match fetched with
  | Return r => mret r
  | Continue invite_var =>
      invite ← load_local "invite" invite_var;
      if bool_decide (reset_localpart invite ≠ None) then
        mret (redirect (url_for ".reset" [("id_", id_)]))
      else
        let form := RegisterForm req in
        let '(valid, form) := validate_on_submit req form in
        submitted ←
          (if valid then
             try_except
               (localpart ← getattr form "localpart";
                password ← getattr form "password";
                jid ← register_with_token (data localpart) (data password) id_;
                mret (Continue (inl jid)))
               (fun exc =>
                  match exc with
                  | ClientResponseError status =>
                      if (status =? 409)%Z then
                        form' ← append_error form "localpart"
                                  "That username is already taken.";
                        mret (Continue (inr form'))
                      else if (status =? 403)%Z then
                        form' ← append_error form "localpart"
                                  "Registration was declined for unknown reasons.";
                        mret (Continue (inr form'))
                      else if (status =? 400)%Z then
                        form' ← append_error form "localpart"
                                  "The username is not valid.";
                        mret (Continue (inr form'))
                      else if (status =? 404)%Z then
                        mret (Return (redirect (url_for ".view" [("id_", id_)])))
                      else raise exc
                  | _ => raise exc
                  end)
           else mret (Continue (inr form)));
        match submitted with
        | Return r => mret r
        | Continue (inl jid) =>
            session_set INVITE_SESSION_JID jid;;
            mret (redirect (url_for ".success" []))
        | Continue (inr form) =>
            mret (body_only
              (render_template "invite_register.html"
                 [("invite", AInvite invite); ("form", AForm form)]))
        end
  end.

Definition reset (req : Request) (id_ : string) : M Response :=
  fetched ← try_except
    (invite ← get_public_invite_by_id id_;
     mret (Continue (Some invite)))
    (fun exc =>
       match exc with
       | ClientResponseError status =>
           if (status =? 404)%Z then
             mret (Return (redirect (url_for ".view" [("id_", id_)])))
           else mret (Continue None)
       | _ => raise exc
       end);
  match fetched with
  | Return r => mret r
  | Continue invite_var =>
      invite ← load_local "invite" invite_var;
      match reset_localpart invite with
      | None => mret (redirect (url_for ".register" [("id_", id_)]))
      | Some reset_localpart =>
          let form := ResetForm req in
          let '(valid, form) := validate_on_submit req form in
          submitted ←
            (if valid then
               try_except
                 (password ← getattr form "password";
                  jid ← register_with_token (DStr reset_localpart) (data password) id_;
                  mret (Continue (inl jid)))
                 (fun exc =>
                    match exc with
                    | ClientResponseError status =>
                        if (status =? 403)%Z then
                          form' ← append_error form "localpart"
                                    "Registration was declined for unknown reasons.";
                          mret (Continue (inr form'))
                        else if (status =? 404)%Z then
                          mret (Return (redirect (url_for ".view" [("id_", id_)])))
                        else raise exc
                    | _ => raise exc
                    end)
             else mret (Continue (inr form)));
          match submitted with
          | Return r => mret r
          | Continue (inl jid) =>
              session_set INVITE_SESSION_JID jid;;
              mret (redirect (url_for ".reset_success" []))
          | Continue (inr form) =>
              mret (body_only
                (render_template "invite_reset.html"
                   [("invite", AInvite invite); ("form", AForm form)]))
          end
      end
  end.

Definition success : M Response :=
  jid ← session_get INVITE_SESSION_JID "";
  mret (body_only (render_template "invite_success.html" [("jid", AStr jid)])).

Definition reset_success : M Response :=
  jid ← session_get INVITE_SESSION_JID "";
  mret (body_only (render_template "invite_reset_success.html" [("jid", AStr jid)])).

Definition index : M Response :=
  mret (redirect (url_for "index" [])).

End Handlers.

(** ** The store badge *)

Section StoreBadge.

(** What [selected_locale()] returns for the request ([.infra], not part
    of this file's source). *)
Variable selected_locale : string.

(** Whether [static/img/apple/<filename>] exists beside the module:
    [(static_path / filename).exists()]. *)
Variable badge_exists : string -> bool.

Definition apple_store_badge : Url :=
  let locale := selected_locale in
  let filename := locale +:+ ".svg" in
  if badge_exists filename then
    url_for "static" [("filename", "img/apple/" +:+ filename)]
  else url_for "static" [("filename", "img/apple/en.svg")].

End StoreBadge.

(** ** Running a handler *)

(** The world after the invite fetch of a request: the call is logged,
    the session is untouched. *)
Definition after_fetch (w : World) (id_ : string) : World :=
  mkWorld (http_session w) (remote_calls w ++ [CallGetInvite id_]).

Ltac unfold_monad :=
  unfold mbind, mret, M_bind, M_ret, try_except, raise, load_local,
    get_public_invite_by_id, register_with_token, session_set, session_get,
    config_get, after_fetch in *.

(** Unfold a handler and compute as far as the known answers allow. *)
Ltac run_handler :=
  unfold view, register, reset, success, reset_success; unfold_monad; simpl;
  repeat match goal with
         | H : invite_answer _ _ = _ |- _ => rewrite H; simpl
         | H : reset_localpart _ = _ |- _ => rewrite H; simpl
         end.

(** The errors with which the confirmation field of either form comes
    out of validation, in closed form (see [validated_confirm_field]). *)
Definition confirm_errors (formdata : MultiDict) : list string :=
  if bool_decide (first_value formdata "password_confirm" = "") then
    [required_message]
  else if bool_decide (first_value formdata "password_confirm"
                       = first_value formdata "password") then []
  else ["The passwords must match."].

Arguments validate_on_submit : simpl never.
Arguments validate : simpl never.
Arguments RegisterForm : simpl never.
Arguments ResetForm : simpl never.

(** The statuses of the register call that [register] turns into a
    message on the username field, with the message of each. *)
Definition register_messages : list (Z * string) :=
  [ (409, "That username is already taken.");
    (403, "Registration was declined for unknown reasons.");
    (400, "The username is not valid.") ].

(** ** Sample inputs *)

Definition register_invite : Invite :=
  mkInvite "abc" "example.org" None "xmpp:example.org?register;preauth=abc".

Definition reset_invite : Invite :=
  mkInvite "abc" "example.org" (Some "alice")
    "xmpp:example.org?register;preauth=abc".

(** A client that gives the same two answers to every call. *)
Definition constant_client (invite : result Invite) (jid : result string)
    : Client :=
  mkClient (fun _ => invite) (fun _ _ _ => jid).

Definition empty_world : World := mkWorld ∅ [].

Definition sample_config : gmap string string :=
  {[ "APPLE_STORE_URL" := "https://apps.apple.com/app/snikket/id1545164189" ]}.

(** A stand-in for [urlencode] that joins the pairs without escaping. *)
Fixpoint plain_urlencode (query : list (string * string)) : string :=
  match query with
  | [] => ""
  | [(k, v)] => k +:+ "=" +:+ v
  | (k, v) :: rest => k +:+ "=" +:+ v +:+ "&" +:+ plain_urlencode rest
  end.

Definition post (fields : MultiDict) : Request := mkRequest POST fields.

(** The pages of the two success endpoints for a given identifier. *)
Definition success_page (jid : string) : Response :=
  body_only (render_template "invite_success.html" [("jid", AStr jid)]).

Definition reset_success_page (jid : string) : Response :=
  body_only (render_template "invite_reset_success.html" [("jid", AStr jid)]).

(** The identifier the session holds, the empty string when it holds
    none. *)
Definition stored_jid (w : World) : string :=
  default "" (http_session w !! INVITE_SESSION_JID).

(** * Properties *)

(** ** Fields of a form *)

Section FieldLookup.
Context {A B : Type}.

Lemma lookup_field_notin (name : string) (fields : list (string * A)) :
  name ∉ fields.*1 → lookup_field name fields = None.
Proof.
  induction fields as [|[n f] rest IH]; simpl; [done|].
  intros Hnot. apply not_elem_of_cons in Hnot as [Hne Hrest].
  rewrite bool_decide_eq_false_2 by (intros ->; done). auto.
Qed.

Lemma lookup_field_app_notin (name : string) (l1 l2 : list (string * A)) :
  name ∉ l1.*1 → lookup_field name (l1 ++ l2) = lookup_field name l2.
Proof.
  induction l1 as [|[n f] rest IH]; simpl; [done|].
  intros Hnot. apply not_elem_of_cons in Hnot as [Hne Hrest].
  rewrite bool_decide_eq_false_2 by (intros ->; done). auto.
Qed.

(** A map over the fields that keeps their names commutes with lookup. *)
Lemma lookup_field_map (g : string → A → B) (name : string)
    (fields : list (string * A)) :
  lookup_field name (map (fun nf : string * A => (nf.1, g nf.1 nf.2)) fields)
  = g name <$> lookup_field name fields.
Proof.
  induction fields as [|[n f] rest IH]; simpl; [done|].
  case_bool_decide; simpl; [by subst | done].
Qed.

End FieldLookup.

Lemma class_fields_own (base own : list (string * UnboundField)) (name : string) :
  name ∈ own.*1 →
  lookup_field name (class_fields base own) = lookup_field name own.
Proof.
  intros Hin. unfold class_fields. apply lookup_field_app_notin.
  intros Hbase. apply list_elem_of_fmap in Hbase as [[n u] [-> Hnu]].
  apply list_elem_of_filter in Hnu as [Hnot _]. simpl in *. done.
Qed.

Lemma class_fields_neither (base own : list (string * UnboundField)) (name : string) :
  name ∉ base.*1 → name ∉ own.*1 →
  lookup_field name (class_fields base own) = None.
Proof.
  intros Hb Ho. apply lookup_field_notin. unfold class_fields.
  rewrite fmap_app. intros [Hin|Hin]%elem_of_app; [|done].
  apply Hb. apply list_elem_of_fmap in Hin as [nu [-> Hnu]].
  apply list_elem_of_filter in Hnu as [_ Hnu].
  apply list_elem_of_fmap. eauto.
Qed.

Lemma lookup_field_instantiate (fields : list (string * UnboundField))
    (req : Request) (name : string) :
  lookup_field name (instantiate fields req)
  = process (if is_submitted req then Some (request_form req) else None) name
      <$> lookup_field name fields.
Proof. unfold instantiate. apply lookup_field_map. Qed.

Lemma lookup_field_validate (form : Form) (name : string) :
  lookup_field name (validate form).2
  = validate_field form <$> lookup_field name form.
Proof.
  unfold validate. simpl.
  apply (lookup_field_map (fun _ f => validate_field form f)).
Qed.

(** A field with an error makes the form invalid, and in a valid form no
    field has one. *)
Lemma validate_false (form : Form) (name : string) (f : Field) :
  lookup_field name (validate form).2 = Some f →
  errors f ≠ [] →
  (validate form).1 = false.
Proof.
  unfold validate. simpl.
  generalize (map (fun nf : string * Field => (nf.1, validate_field form nf.2)) form).
  intros form'. induction form' as [|[n g] rest IH]; simpl; [done|].
  case_bool_decide as Hn; intros Hf Herr.
  - injection Hf as ->. by rewrite bool_decide_eq_false_2.
  - rewrite (IH Hf Herr). apply andb_false_r.
Qed.

Lemma validate_true (form : Form) (name : string) (f : Field) :
  (validate form).1 = true →
  lookup_field name (validate form).2 = Some f →
  errors f = [].
Proof.
  intros Hv Hf. destruct (errors f) as [|e es] eqn:He; [done|].
  rewrite (validate_false form name f) in Hv; [done | done | by rewrite He].
Qed.

Lemma process_formdata_text (fd : MultiDict) (name : string) :
  process_formdata PasswordField (getlist fd name) = DStr (first_value fd name)
  ∧ process_formdata StringField (getlist fd name) = DStr (first_value fd name).
Proof. unfold first_value. by destruct (getlist fd name). Qed.

Lemma has_input_first_value (k : FieldKind) (l : string) (vs : list Validator)
    (fd : MultiDict) (name : string) (d : Data) (es : list string) :
  has_input (mkField k l vs (Some (getlist fd name)) d es)
  = negb (bool_decide (first_value fd name = "")).
Proof. unfold has_input, first_value. simpl. by destruct (getlist fd name). Qed.

(** ** The fetch step *)

(** C3: when the invite lookup answers 404, [view] returns the
    invalid-invite page with status 404, and [register] and [reset] both
    redirect to the view endpoint of that id. *)
Theorem not_found_invite (cl : Client) (base : list (string * UnboundField))
    (config : gmap string string) (urlencode : list (string * string) → string)
    (req : Request) (id_ : string) (w : World) :
  invite_answer cl id_ = Raises (ClientResponseError 404) →
  view cl config urlencode id_ w
    = (Returns (body_status (render_template "invite_invalid.html" []) 404),
       after_fetch w id_)
  ∧ register cl base req id_ w
    = (Returns (redirect (url_for ".view" [("id_", id_)])), after_fetch w id_)
  ∧ reset cl base req id_ w
    = (Returns (redirect (url_for ".view" [("id_", id_)])), after_fetch w id_).
Proof. intros Hfetch. repeat split; by run_handler. Qed.

(** C2: when the fetch succeeds, an invite with [reset_localpart] set sent
    to [register] is redirected to the reset endpoint, and an invite
    without it sent to [reset] is redirected to the register endpoint,
    whatever the request; nothing is raised and no form is rendered. *)
Theorem wrong_path_redirects (cl : Client) (base : list (string * UnboundField))
    (req : Request) (id_ : string) (w : World) (invite : Invite) :
  invite_answer cl id_ = Returns invite →
  match reset_localpart invite with
  | Some _ =>
      register cl base req id_ w
      = (Returns (redirect (url_for ".reset" [("id_", id_)])), after_fetch w id_)
  | None =>
      reset cl base req id_ w
      = (Returns (redirect (url_for ".register" [("id_", id_)])), after_fetch w id_)
  end.
Proof.
  intros Hfetch. destruct (reset_localpart invite) as [lp|] eqn:Hlp; by run_handler.
Qed.

(** ** Validation of the two forms *)

Section Validation.
Variable base : list (string * UnboundField).
Variable own : list (string * UnboundField).
Variable req : Request.
Hypothesis submitted : is_submitted req = true.

Let form : Form := instantiate (class_fields base own) req.
Let formdata : MultiDict := request_form req.

Lemma lookup_field_Some_in {A : Type} (name : string)
    (fields : list (string * A)) (a : A) :
  lookup_field name fields = Some a → name ∈ fields.*1.
Proof.
  induction fields as [|[n f] rest IH]; simpl; [done|].
  case_bool_decide; [subst; intros _; left | intros H'; right; auto].
Qed.

Lemma instantiated_field (name : string) (u : UnboundField) :
  lookup_field name own = Some u →
  lookup_field name form
  = Some (mkField (uf_kind u) (uf_label u) (uf_validators u)
            (Some (getlist formdata name))
            (process_formdata (uf_kind u) (getlist formdata name)) []).
Proof.
  intros Hown. unfold form. rewrite lookup_field_instantiate, submitted.
  rewrite class_fields_own by (by eapply lookup_field_Some_in).
  by rewrite Hown.
Qed.

(** A text field declared without validators keeps the submitted value
    and has no error. *)
Lemma validated_text_field (name : string) (k : FieldKind) (l : string) :
  lookup_field name own = Some (mkUnbound k l []) →
  k ≠ SubmitField →
  lookup_field name (validate form).2
  = Some (mkField k l [] (Some (getlist formdata name))
            (DStr (first_value formdata name)) []).
Proof.
  intros Hown Hk. rewrite lookup_field_validate.
  rewrite (instantiated_field _ _ Hown). simpl.
  unfold validate_field, with_errors. simpl.
  destruct (process_formdata_text formdata name) as [Hp Hs].
  destruct k; [by rewrite Hs | by rewrite Hp | done].
Qed.

(** The confirmation field: required first, then compared with the
    password field. *)
Lemma validated_confirm_field (l l' : string) (vs : list Validator) :
  lookup_field "password_confirm" own
  = Some (mkUnbound PasswordField l
            [InputRequired; EqualTo "password" "The passwords must match."]) →
  lookup_field "password" own = Some (mkUnbound PasswordField l' vs) →
  ∃ f, lookup_field "password_confirm" (validate form).2 = Some f
       ∧ data f = DStr (first_value formdata "password_confirm")
       ∧ errors f = confirm_errors formdata.
Proof.
  intros Hc Hp. rewrite lookup_field_validate.
  rewrite (instantiated_field _ _ Hc). simpl. eexists. split; [done|].
  destruct (process_formdata_text formdata "password_confirm") as [Hpc _].
  destruct (process_formdata_text formdata "password") as [Hpp _].
  simpl. split; [done|].
  rewrite has_input_first_value, (instantiated_field _ _ Hp). simpl.
  simpl in Hpc, Hpp. unfold confirm_errors. rewrite Hpc, Hpp. simpl.
  by case_bool_decide.
Qed.

(** A name that neither the base class nor the form class declares is
    not an attribute of the form. *)
Lemma validated_no_field (name : string) :
  name ∉ base.*1 → name ∉ own.*1 →
  lookup_field name (validate form).2 = None.
Proof.
  intros Hb Ho. rewrite lookup_field_validate. unfold form.
  rewrite lookup_field_instantiate, class_fields_neither by done. done.
Qed.

Lemma validate_on_submit_submitted :
  validate_on_submit req form = validate form.
Proof. unfold validate_on_submit. by rewrite submitted. Qed.

End Validation.

Lemma lookup_field_set_field (name : string) (f f' : Field) (form : Form) :
  lookup_field name form = Some f →
  lookup_field name (set_field name f' form) = Some f'.
Proof.
  induction form as [|[n g] rest IH]; simpl; [done|].
  case_bool_decide as Hn; simpl.
  - by rewrite bool_decide_eq_true_2.
  - by rewrite bool_decide_eq_false_2.
Qed.

Lemma valid_is_submitted (req : Request) (form : Form) :
  (validate_on_submit req form).1 = true → is_submitted req = true.
Proof. unfold validate_on_submit. by destruct (is_submitted req). Qed.

(** ** The register submission *)

Section RegisterSubmission.
Variable cl : Client.
Variable base : list (string * UnboundField).
Variable req : Request.
Variable id_ : string.
Variable w : World.
Variable invite : Invite.
Hypothesis fetch_ok : invite_answer cl id_ = Returns invite.
Hypothesis register_type : reset_localpart invite = None.

Let formdata : MultiDict := request_form req.
Let username : Data := DStr (first_value formdata "localpart").
Let password : Data := DStr (first_value formdata "password").

(** The page that shows the register form again. *)
Let register_page (form : Form) : Response :=
  body_only (render_template "invite_register.html"
               [("invite", AInvite invite); ("form", AForm form)]).

(** The world once the register call has been made. *)
Let after_call : World :=
  mkWorld (http_session w)
    (remote_calls w ++ [CallGetInvite id_; CallRegister username password id_]).

(** A submission that does not validate (or a request that submits
    nothing) renders the form and makes no register call. *)
Lemma register_not_valid :
  (validate_on_submit req (RegisterForm base req)).1 = false →
  register cl base req id_ w
  = (Returns (register_page (validate_on_submit req (RegisterForm base req)).2),
     after_fetch w id_).
Proof.
  intros Hv. run_handler.
  destruct (validate_on_submit req (RegisterForm base req)) as [valid form'].
  simpl in Hv. subst valid. done.
Qed.

(** A submitted form whose confirmation field fails is shown again with
    the errors of that field; no register call is made. *)
Lemma register_confirm_rejected :
  is_submitted req = true →
  confirm_errors formdata ≠ [] →
  ∃ form' f,
    register cl base req id_ w
    = (Returns (register_page form'), after_fetch w id_)
    ∧ lookup_field "password_confirm" form' = Some f
    ∧ errors f = confirm_errors formdata.
Proof.
  intros Hsub Herr.
  destruct (validated_confirm_field base RegisterForm_own req Hsub
              "Confirm password" "Password" []) as (f & Hf & _ & Hef);
    [done | done |].
  exists (validate_on_submit req (RegisterForm base req)).2, f.
  split; [|split; [|done]].
  - apply register_not_valid. unfold RegisterForm.
    rewrite validate_on_submit_submitted by done.
    apply (validate_false _ _ _ Hf). by rewrite Hef.
  - unfold RegisterForm. by rewrite validate_on_submit_submitted.
Qed.

(** In a valid submission the two text fields hold what was submitted
    and carry no error. *)
Lemma register_valid_form :
  (validate_on_submit req (RegisterForm base req)).1 = true →
  ∃ form',
    validate_on_submit req (RegisterForm base req) = (true, form')
    ∧ lookup_field "localpart" form'
      = Some (mkField StringField "Username" []
                (Some (getlist formdata "localpart")) username [])
    ∧ lookup_field "password" form'
      = Some (mkField PasswordField "Password" []
                (Some (getlist formdata "password")) password []).
Proof.
  intros Hv. pose proof (valid_is_submitted _ _ Hv) as Hsub.
  exists (validate_on_submit req (RegisterForm base req)).2.
  split; [by rewrite <- Hv; destruct (validate_on_submit _ _)|].
  unfold RegisterForm. rewrite validate_on_submit_submitted by done.
  split; by apply validated_text_field.
Qed.

Ltac run_valid Hv form' Hform Hlp Hpw :=
  destruct (register_valid_form Hv) as (form' & Hform & Hlp & Hpw);
  run_handler; rewrite Hform; simpl;
  unfold append_error, getattr; unfold_monad; simpl;
  rewrite ?Hlp, ?Hpw; simpl.

(** Success: the identifier goes into the session and the browser is
    sent to the success page. *)
Lemma register_success (jid : string) :
  (validate_on_submit req (RegisterForm base req)).1 = true →
  register_answer cl username password id_ = Returns jid →
  register cl base req id_ w
  = (Returns (redirect (url_for ".success" [])),
     mkWorld (<[INVITE_SESSION_JID := jid]> (http_session w))
       (remote_calls after_call)).
Proof.
  intros Hv Hans. run_valid Hv form' Hform Hlp Hpw.
  fold username password. rewrite Hans. simpl. by rewrite <- app_assoc.
Qed.

(** Statuses 409, 403 and 400 put their message on the username field
    and show the form again. *)
Lemma register_mapped_error (status : Z) (message : string) :
  (validate_on_submit req (RegisterForm base req)).1 = true →
  (status, message) ∈ register_messages →
  register_answer cl username password id_
    = Raises (ClientResponseError status) →
  register cl base req id_ w
  = (Returns (register_page
       (set_field "localpart"
          (mkField StringField "Username" []
             (Some (getlist formdata "localpart")) username [message])
          (validate_on_submit req (RegisterForm base req)).2)),
     after_call).
Proof.
  intros Hv Hin Hans. run_valid Hv form' Hform Hlp Hpw.
  fold username password. rewrite Hans. simpl.
  unfold after_call. rewrite <- app_assoc. simpl.
  unfold register_messages in Hin.
  repeat (apply elem_of_cons in Hin as [[= -> ->]|Hin]; [simpl; by rewrite ?Hlp|]).
  by apply elem_of_nil in Hin.
Qed.

(** Status 404 from the register call: back to the view endpoint. *)
Lemma register_call_not_found :
  (validate_on_submit req (RegisterForm base req)).1 = true →
  register_answer cl username password id_
    = Raises (ClientResponseError 404) →
  register cl base req id_ w
  = (Returns (redirect (url_for ".view" [("id_", id_)])), after_call).
Proof.
  intros Hv Hans. run_valid Hv form' Hform Hlp Hpw.
  fold username password. rewrite Hans. simpl.
  unfold after_call. by rewrite <- app_assoc.
Qed.

(** Any other status from the register call is raised again. *)
Lemma register_call_reraised (status : Z) :
  (validate_on_submit req (RegisterForm base req)).1 = true →
  status ∉ [409; 403; 400; 404] →
  register_answer cl username password id_
    = Raises (ClientResponseError status) →
  register cl base req id_ w
  = (Raises (ClientResponseError status), after_call).
Proof.
  intros Hv Hnot Hans. run_valid Hv form' Hform Hlp Hpw.
  fold username password. rewrite Hans. simpl.
  unfold after_call. rewrite <- app_assoc. simpl.
  repeat (apply not_elem_of_cons in Hnot as [Hne Hnot];
          apply Z.eqb_neq in Hne; rewrite Hne; clear Hne).
  done.
Qed.

End RegisterSubmission.

(** ** The reset submission *)

Section ResetSubmission.
Variable cl : Client.
Variable base : list (string * UnboundField).
Variable req : Request.
Variable id_ : string.
Variable w : World.
Variable invite : Invite.
Variable localpart : string.
Hypothesis fetch_ok : invite_answer cl id_ = Returns invite.
Hypothesis reset_type : reset_localpart invite = Some localpart.

Let formdata : MultiDict := request_form req.
Let password : Data := DStr (first_value formdata "password").

Let reset_page (form : Form) : Response :=
  body_only (render_template "invite_reset.html"
               [("invite", AInvite invite); ("form", AForm form)]).

(** The world once the register call has been made: the username is
    the invite's [reset_localpart]. *)
Let after_call : World :=
  mkWorld (http_session w)
    (remote_calls w
     ++ [CallGetInvite id_; CallRegister (DStr localpart) password id_]).

Lemma reset_not_valid :
  (validate_on_submit req (ResetForm base req)).1 = false →
  reset cl base req id_ w
  = (Returns (reset_page (validate_on_submit req (ResetForm base req)).2),
     after_fetch w id_).
Proof.
  intros Hv. run_handler.
  destruct (validate_on_submit req (ResetForm base req)) as [valid form'].
  simpl in Hv. subst valid. done.
Qed.

(** In a valid submission the password field holds what was submitted;
    the form has a [localpart] attribute only if the base class
    declares one. *)
Lemma reset_valid_form :
  (validate_on_submit req (ResetForm base req)).1 = true →
  ∃ form',
    validate_on_submit req (ResetForm base req) = (true, form')
    ∧ lookup_field "password" form'
      = Some (mkField PasswordField "Password" []
                (Some (getlist formdata "password")) password [])
    ∧ ("localpart" ∉ base.*1 → lookup_field "localpart" form' = None).
Proof.
  intros Hv. pose proof (valid_is_submitted _ _ Hv) as Hsub.
  exists (validate_on_submit req (ResetForm base req)).2.
  split; [by rewrite <- Hv; destruct (validate_on_submit _ _)|].
  unfold ResetForm. rewrite validate_on_submit_submitted by done.
  split; [by apply validated_text_field|].
  intros Hbase. apply validated_no_field; [done|].
  by apply (bool_decide_unpack _).
Qed.

Ltac run_valid_reset Hv form' Hform Hpw Hlp :=
  destruct (reset_valid_form Hv) as (form' & Hform & Hpw & Hlp);
  run_handler; rewrite Hform; simpl;
  unfold append_error, getattr; unfold_monad; simpl;
  rewrite ?Hpw; simpl; fold password.

(** Success: the register call was made with the invite's
    [reset_localpart] as username; the identifier goes into the session
    and the browser is sent to the reset-success page. *)
Lemma reset_success_call (jid : string) :
  (validate_on_submit req (ResetForm base req)).1 = true →
  register_answer cl (DStr localpart) password id_ = Returns jid →
  reset cl base req id_ w
  = (Returns (redirect (url_for ".reset_success" [])),
     mkWorld (<[INVITE_SESSION_JID := jid]> (http_session w))
       (remote_calls after_call)).
Proof.
  intros Hv Hans. run_valid_reset Hv form' Hform Hpw Hlp.
  rewrite Hans. simpl. by rewrite <- app_assoc.
Qed.

(** Status 404 from the register call: back to the view endpoint. *)
Lemma reset_call_not_found :
  (validate_on_submit req (ResetForm base req)).1 = true →
  register_answer cl (DStr localpart) password id_
    = Raises (ClientResponseError 404) →
  reset cl base req id_ w
  = (Returns (redirect (url_for ".view" [("id_", id_)])), after_call).
Proof.
  intros Hv Hans. run_valid_reset Hv form' Hform Hpw Hlp.
  rewrite Hans. simpl. unfold after_call. by rewrite <- app_assoc.
Qed.

(** Any status other than 403 and 404 is raised again. *)
Lemma reset_call_reraised (status : Z) :
  (validate_on_submit req (ResetForm base req)).1 = true →
  status ∉ [403; 404] →
  register_answer cl (DStr localpart) password id_
    = Raises (ClientResponseError status) →
  reset cl base req id_ w
  = (Raises (ClientResponseError status), after_call).
Proof.
  intros Hv Hnot Hans. run_valid_reset Hv form' Hform Hpw Hlp.
  rewrite Hans. simpl. unfold after_call. rewrite <- app_assoc. simpl.
  repeat (apply not_elem_of_cons in Hnot as [Hne Hnot];
          apply Z.eqb_neq in Hne; rewrite Hne; clear Hne).
  done.
Qed.

(** C4: on status 403 the handler reaches for [form.localpart], which
    [ResetForm] does not declare: unless the base class declares a
    field of that name, the valid reset submission that the remote side
    declines ends in an AttributeError, not in the form with a
    "declined" message.  (The username of the call is the invite's
    [reset_localpart], as [after_call] records.) *)
Theorem reset_declined_raises :
  "localpart" ∉ base.*1 →
  (validate_on_submit req (ResetForm base req)).1 = true →
  register_answer cl (DStr localpart) password id_
    = Raises (ClientResponseError 403) →
  reset cl base req id_ w
  = (Raises (AttributeError "localpart"), after_call).
Proof.
  intros Hbase Hv Hans. run_valid_reset Hv form' Hform Hpw Hlp.
  rewrite Hans. simpl. rewrite (Hlp Hbase). simpl.
  unfold after_call. by rewrite <- app_assoc.
Qed.

End ResetSubmission.

(** ** Failures of the fetch *)

(** [view] raises again every status of the fetch other than 404. *)
Lemma view_fetch_reraised (cl : Client) (config : gmap string string)
    (urlencode : list (string * string) → string) (id_ : string) (w : World)
    (status : Z) :
  status ≠ 404 →
  invite_answer cl id_ = Raises (ClientResponseError status) →
  view cl config urlencode id_ w
  = (Raises (ClientResponseError status), after_fetch w id_).
Proof.
  intros Hne Hfetch. run_handler. apply Z.eqb_neq in Hne. by rewrite Hne.
Qed.

(** [register] and [reset] do not: their [except] clause ends without a
    [raise], and the next statement reads the unassigned [invite]. *)
Lemma fetch_failure_unbound (cl : Client) (base : list (string * UnboundField))
    (req : Request) (id_ : string) (w : World) (status : Z) :
  status ≠ 404 →
  invite_answer cl id_ = Raises (ClientResponseError status) →
  register cl base req id_ w
    = (Raises (UnboundLocalError "invite"), after_fetch w id_)
  ∧ reset cl base req id_ w
    = (Raises (UnboundLocalError "invite"), after_fetch w id_).
Proof.
  intros Hne Hfetch. apply Z.eqb_neq in Hne.
  split; run_handler; by rewrite Hne.
Qed.

(** C1: a fetch that fails with status 500.  [view] raises the caught
    exception again, but [register] and [reset] do not: the caught
    [ClientResponseError] is dropped and the request fails instead with
    the UnboundLocalError of reading [invite]. *)
Theorem fetch_500_not_reraised (base : list (string * UnboundField))
    (config : gmap string string) (urlencode : list (string * string) → string)
    (answer : Data → Data → string → result string)
    (req : Request) (id_ : string) (w : World) :
  let cl := mkClient (fun _ => Raises (ClientResponseError 500)) answer in
  view cl config urlencode id_ w
    = (Raises (ClientResponseError 500), after_fetch w id_)
  ∧ register cl base req id_ w
    = (Raises (UnboundLocalError "invite"), after_fetch w id_)
  ∧ reset cl base req id_ w
    = (Raises (UnboundLocalError "invite"), after_fetch w id_).
Proof. by repeat split. Qed.

(** ** The view page *)

(** C5 (as stated) fails: the view of a reset-type invite is a bare page,
    with no [Link] header. *)
Lemma view_reset_invite_no_link :
  let cl := constant_client (Returns reset_invite) (Returns "") in
  invite_answer cl "abc" = Returns reset_invite
  ∧ ∃ r w',
      view cl sample_config plain_urlencode "abc" empty_world = (Returns r, w')
      ∧ headers_of r = [].
Proof. split; [done|]. by eexists _, _. Qed.

(** C5 (amended): when the fetch succeeds, the view of a reset-type invite
    is the reset-flow page, returned as a bare page; the view of any other
    invite is the invite page in a response whose [Link] header is
    [<xmpp-uri> rel="alternate"], provided the configuration holds
    APPLE_STORE_URL, which the page shows. *)
Theorem view_of_fetched_invite (cl : Client) (config : gmap string string)
    (urlencode : list (string * string) → string) (id_ : string) (w : World)
    (invite : Invite) :
  invite_answer cl id_ = Returns invite →
  (∀ localpart, reset_localpart invite = Some localpart →
     view cl config urlencode id_ w
     = (Returns (body_only
          (render_template "invite_reset_view.html"
             [("invite", AInvite invite);
              ("invite_id", AStr id_);
              ("account_jid", AStr (localpart +:+ "@" +:+ domain invite))])),
        after_fetch w id_))
  ∧ (∀ apple_store_url,
       reset_localpart invite = None →
       config !! "APPLE_STORE_URL" = Some apple_store_url →
       ∃ context,
         view cl config urlencode id_ w
         = (Returns (quart_Response (render_template "invite_view.html" context)
              [("Link",
                "<" +:+ xmpp_uri invite +:+ "> rel=" +:+ dquote +:+ "alternate"
                +:+ dquote)]),
            after_fetch w id_)
         ∧ lookup_field "invite" context = Some (AInvite invite)).
Proof.
  intros Hfetch. split.
  - intros lp Hlp. by run_handler.
  - intros apple Hnone Hcfg. eexists. run_handler. rewrite Hcfg. simpl.
    split; reflexivity.
Qed.

Lemma view_of_fetched_invite_witness :
  (view (constant_client (Returns reset_invite) (Returns "")) sample_config
     plain_urlencode "abc" empty_world).1
  = Returns (body_only
      (render_template "invite_reset_view.html"
         [("invite", AInvite reset_invite);
          ("invite_id", AStr "abc");
          ("account_jid", AStr "alice@example.org")]))
  ∧ ∃ context w',
      view (constant_client (Returns register_invite) (Returns "")) sample_config
        plain_urlencode "abc" empty_world
      = (Returns (quart_Response (render_template "invite_view.html" context)
           [("Link",
             "<xmpp:example.org?register;preauth=abc> rel=" +:+ dquote
             +:+ "alternate" +:+ dquote)]), w').
Proof.
  split.
  - rewrite (proj1 (view_of_fetched_invite
               (constant_client (Returns reset_invite) (Returns ""))
               sample_config plain_urlencode "abc" empty_world reset_invite
               eq_refl) "alice" eq_refl).
    reflexivity.
  - destruct (proj2 (view_of_fetched_invite
               (constant_client (Returns register_invite) (Returns ""))
               sample_config plain_urlencode "abc" empty_world register_invite
               eq_refl) _ eq_refl eq_refl) as (context & Hview & _).
    exists context, (after_fetch empty_world "abc"). exact Hview.
Defined.

(** ** Witnesses for the fetch step *)

Lemma not_found_invite_witness :
  view (constant_client (Raises (ClientResponseError 404)) (Returns ""))
    sample_config plain_urlencode "abc" empty_world
  = (Returns (body_status (render_template "invite_invalid.html" []) 404),
     after_fetch empty_world "abc")
  ∧ register (constant_client (Raises (ClientResponseError 404)) (Returns ""))
      [] (post []) "abc" empty_world
    = (Returns (redirect (url_for ".view" [("id_", "abc")])),
       after_fetch empty_world "abc")
  ∧ reset (constant_client (Raises (ClientResponseError 404)) (Returns ""))
      [] (post []) "abc" empty_world
    = (Returns (redirect (url_for ".view" [("id_", "abc")])),
       after_fetch empty_world "abc").
Proof.
  apply (not_found_invite
           (constant_client (Raises (ClientResponseError 404)) (Returns ""))
           [] sample_config plain_urlencode (post []) "abc" empty_world).
  reflexivity.
Defined.

Lemma wrong_path_redirects_witness :
  register (constant_client (Returns reset_invite) (Returns "")) []
    (post []) "abc" empty_world
  = (Returns (redirect (url_for ".reset" [("id_", "abc")])),
     after_fetch empty_world "abc")
  ∧ reset (constant_client (Returns register_invite) (Returns "")) []
      (mkRequest GET []) "abc" empty_world
    = (Returns (redirect (url_for ".register" [("id_", "abc")])),
       after_fetch empty_world "abc").
Proof.
  split.
  - apply (wrong_path_redirects
             (constant_client (Returns reset_invite) (Returns "")) []
             (post []) "abc" empty_world reset_invite).
    reflexivity.
  - apply (wrong_path_redirects
             (constant_client (Returns register_invite) (Returns "")) []
             (mkRequest GET []) "abc" empty_world register_invite).
    reflexivity.
Defined.

(** ** Local validation of the register form *)

(** C6 (as stated) fails for the username: a submission without one, with
    matching passwords, validates; the register call is made with the
    empty username and the answer is followed. *)
Lemma register_without_username_calls_remote :
  let req := post [("password", "pw"); ("password_confirm", "pw")] in
  first_value (request_form req) "localpart" = ""
  ∧ register (constant_client (Returns register_invite) (Returns "@example.org"))
      [] req "abc" empty_world
    = (Returns (redirect (url_for ".success" [])),
       mkWorld (<[INVITE_SESSION_JID := "@example.org"]> ∅)
         [CallGetInvite "abc"; CallRegister (DStr "") (DStr "pw") "abc"]).
Proof. split; reflexivity. Qed.

(** C6 (amended): a register submission in which the password or the
    password confirmation is missing is rejected by local validation: the
    form is shown again with an error on the confirmation field and no
    register call is made. *)
Theorem register_missing_password_rejected (cl : Client)
    (base : list (string * UnboundField)) (req : Request) (id_ : string)
    (w : World) (invite : Invite) :
  invite_answer cl id_ = Returns invite →
  reset_localpart invite = None →
  method req = POST →
  first_value (request_form req) "password" = ""
  ∨ first_value (request_form req) "password_confirm" = "" →
  ∃ form' f,
    register cl base req id_ w
    = (Returns (body_only (render_template "invite_register.html"
                  [("invite", AInvite invite); ("form", AForm form')])),
       after_fetch w id_)
    ∧ lookup_field "password_confirm" form' = Some f
    ∧ errors f = confirm_errors (request_form req)
    ∧ errors f ≠ [].
Proof.
  intros Hfetch Hnone Hpost Hmissing.
  assert (is_submitted req = true) as Hsub by (unfold is_submitted; by rewrite Hpost).
  assert (confirm_errors (request_form req) ≠ []) as Herr.
  { unfold confirm_errors. case_bool_decide as Hc; [done|].
    destruct Hmissing as [Hp|Hp]; [|done].
    rewrite Hp. by rewrite bool_decide_eq_false_2. }
  destruct (register_confirm_rejected cl base req id_ w invite Hfetch Hnone
              Hsub Herr) as (form' & f & Hrun & Hf & Hef).
  exists form', f. repeat split; [done | done | done | by rewrite Hef].
Qed.

Lemma register_missing_password_rejected_witness :
  ∃ form' f,
    register (constant_client (Returns register_invite) (Returns "bob@example.org"))
      [] (post [("localpart", "bob"); ("password_confirm", "pw")]) "abc"
      empty_world
    = (Returns (body_only (render_template "invite_register.html"
                  [("invite", AInvite register_invite); ("form", AForm form')])),
       after_fetch empty_world "abc")
    ∧ lookup_field "password_confirm" form' = Some f
    ∧ errors f = ["The passwords must match."].
Proof.
  destruct (register_missing_password_rejected
              (constant_client (Returns register_invite) (Returns "bob@example.org"))
              [] (post [("localpart", "bob"); ("password_confirm", "pw")]) "abc"
              empty_world register_invite eq_refl eq_refl eq_refl
              (or_introl eq_refl)) as (form' & f & Hrun & Hf & Hef & _).
  exists form', f. repeat split; [exact Hrun | exact Hf | exact Hef].
Defined.

(** C7 (as stated) fails when the confirmation is left empty: it differs
    from the password, but the error shown is the required-field one, not
    the mismatch one. *)
Lemma register_empty_confirmation_required :
  let req := post [("localpart", "bob"); ("password", "pw")] in
  first_value (request_form req) "password"
    ≠ first_value (request_form req) "password_confirm"
  ∧ ∃ form' f w',
      register (constant_client (Returns register_invite) (Returns "bob@example.org"))
        [] req "abc" empty_world
      = (Returns (body_only (render_template "invite_register.html"
                    [("invite", AInvite register_invite); ("form", AForm form')])),
         w')
      ∧ lookup_field "password_confirm" form' = Some f
      ∧ errors f = ["This field is required."]
      ∧ "The passwords must match." ∉ errors f.
Proof.
  split; [done|]. eexists _, _, _. split; [reflexivity|].
  split; [reflexivity|]. split; [reflexivity|].
  simpl. by intros [?|?%elem_of_nil]%elem_of_cons.
Qed.

(** C7 (amended): a register submission in which password and
    confirmation differ makes no register call and is shown again with an
    error on the confirmation field: the mismatch error when a
    confirmation was entered, the required-field error when it was left
    empty. *)
Theorem register_password_mismatch_rejected (cl : Client)
    (base : list (string * UnboundField)) (req : Request) (id_ : string)
    (w : World) (invite : Invite) :
  invite_answer cl id_ = Returns invite →
  reset_localpart invite = None →
  method req = POST →
  first_value (request_form req) "password"
    ≠ first_value (request_form req) "password_confirm" →
  ∃ form' f,
    register cl base req id_ w
    = (Returns (body_only (render_template "invite_register.html"
                  [("invite", AInvite invite); ("form", AForm form')])),
       after_fetch w id_)
    ∧ lookup_field "password_confirm" form' = Some f
    ∧ errors f
      = if bool_decide (first_value (request_form req) "password_confirm" = "")
        then [required_message]
        else ["The passwords must match."].
Proof.
  intros Hfetch Hnone Hpost Hdiff.
  assert (is_submitted req = true) as Hsub by (unfold is_submitted; by rewrite Hpost).
  assert (confirm_errors (request_form req)
          = if bool_decide (first_value (request_form req) "password_confirm" = "")
            then [required_message] else ["The passwords must match."]) as Herr.
  { unfold confirm_errors. case_bool_decide; [done|].
    by rewrite bool_decide_eq_false_2. }
  destruct (register_confirm_rejected cl base req id_ w invite Hfetch Hnone Hsub)
    as (form' & f & Hrun & Hf & Hef).
  { rewrite Herr. by case_bool_decide. }
  exists form', f. repeat split; [done | done | by rewrite Hef].
Qed.

Lemma register_password_mismatch_rejected_witness :
  ∃ form' f,
    register (constant_client (Returns register_invite) (Returns "bob@example.org"))
      [] (post [("localpart", "bob"); ("password", "pw");
                ("password_confirm", "pv")]) "abc" empty_world
    = (Returns (body_only (render_template "invite_register.html"
                  [("invite", AInvite register_invite); ("form", AForm form')])),
       after_fetch empty_world "abc")
    ∧ lookup_field "password_confirm" form' = Some f
    ∧ errors f = ["The passwords must match."].
Proof.
  refine (register_password_mismatch_rejected
            (constant_client (Returns register_invite) (Returns "bob@example.org"))
            [] (post [("localpart", "bob"); ("password", "pw");
                      ("password_confirm", "pv")]) "abc"
            empty_world register_invite eq_refl eq_refl eq_refl _).
  vm_compute. discriminate.
Defined.

(** ** Errors of the register call *)

(** C8: for a locally valid register submission, statuses 409, 403 and
    400 of the register call each put their message ("already taken",
    "declined", "not valid") on the username field and show the form
    again, the field still holding the submitted username; status 404
    redirects to the view endpoint. *)
Theorem register_remote_error_mapping (cl : Client)
    (base : list (string * UnboundField)) (req : Request) (id_ : string)
    (w : World) (invite : Invite) (status : Z) :
  let username := DStr (first_value (request_form req) "localpart") in
  let password := DStr (first_value (request_form req) "password") in
  let after_call :=
    mkWorld (http_session w)
      (remote_calls w ++ [CallGetInvite id_; CallRegister username password id_]) in
  invite_answer cl id_ = Returns invite →
  reset_localpart invite = None →
  (validate_on_submit req (RegisterForm base req)).1 = true →
  register_answer cl username password id_ = Raises (ClientResponseError status) →
  (∀ message, (status, message) ∈ register_messages →
     ∃ form' f,
       register cl base req id_ w
       = (Returns (body_only (render_template "invite_register.html"
                     [("invite", AInvite invite); ("form", AForm form')])),
          after_call)
       ∧ lookup_field "localpart" form' = Some f
       ∧ data f = username
       ∧ errors f = [message])
  ∧ (status = 404 →
     register cl base req id_ w
     = (Returns (redirect (url_for ".view" [("id_", id_)])), after_call)).
Proof.
  intros username password after_call Hfetch Hnone Hv Hans. split.
  - intros message Hin.
    destruct (register_valid_form base req Hv) as (form' & Hform & Hlp & _).
    eexists _, _. split; [by eapply register_mapped_error|].
    rewrite Hform. simpl. split; [by eapply lookup_field_set_field|done].
  - intros ->. by eapply register_call_not_found.
Qed.

Lemma register_remote_error_mapping_witness :
  ∃ form' f w',
    register (constant_client (Returns register_invite)
                (Raises (ClientResponseError 409)))
      [] (post [("localpart", "bob"); ("password", "pw");
                ("password_confirm", "pw")]) "abc" empty_world
    = (Returns (body_only (render_template "invite_register.html"
                  [("invite", AInvite register_invite); ("form", AForm form')])),
       w')
    ∧ lookup_field "localpart" form' = Some f
    ∧ data f = DStr "bob"
    ∧ errors f = ["That username is already taken."].
Proof.
  destruct (proj1 (register_remote_error_mapping
              (constant_client (Returns register_invite)
                 (Raises (ClientResponseError 409)))
              [] (post [("localpart", "bob"); ("password", "pw");
                        ("password_confirm", "pw")]) "abc" empty_world
              register_invite 409 eq_refl eq_refl eq_refl eq_refl)
              "That username is already taken.")
    as (form' & f & Hrun & Hf & Hd & He).
  { apply (bool_decide_unpack _). reflexivity. }
  exists form', f. eexists. repeat split; [exact Hrun | exact Hf | exact Hd | exact He].
Defined.

(** ** The reset submission that is declined *)

Lemma reset_declined_raises_witness :
  reset (constant_client (Returns reset_invite) (Raises (ClientResponseError 403)))
    [] (post [("password", "pw"); ("password_confirm", "pw")]) "abc"
    empty_world
  = (Raises (AttributeError "localpart"),
     mkWorld ∅ [CallGetInvite "abc"; CallRegister (DStr "alice") (DStr "pw") "abc"]).
Proof.
  apply (reset_declined_raises
           (constant_client (Returns reset_invite)
              (Raises (ClientResponseError 403)))
           [] (post [("password", "pw"); ("password_confirm", "pw")]) "abc"
           empty_world reset_invite "alice" eq_refl eq_refl).
  - apply (bool_decide_unpack _). reflexivity.
  - reflexivity.
  - reflexivity.
Defined.

(** ** The session *)

(** Both success pages show the stored identifier, the empty string when
    there is none, and leave the world as it is. *)
Lemma success_reads (w : World) :
  success w = (Returns (success_page (stored_jid w)), w)
  ∧ reset_success w = (Returns (reset_success_page (stored_jid w)), w).
Proof. done. Qed.

Lemma stored_jid_insert (session : gmap string string) (calls : list Call)
    (jid : string) :
  stored_jid (mkWorld (<[INVITE_SESSION_JID := jid]> session) calls) = jid.
Proof. unfold stored_jid. simpl. by rewrite lookup_insert_eq. Qed.

Section SessionFlows.
Variable base : list (string * UnboundField).

(** A register request that succeeds with [jid1] ... *)
Variable cl1 : Client.
Variable req1 : Request.
Variable id1 : string.
Variable invite1 : Invite.
Variable jid1 : string.
Hypothesis fetch1 : invite_answer cl1 id1 = Returns invite1.
Hypothesis register_type : reset_localpart invite1 = None.
Hypothesis valid1 : (validate_on_submit req1 (RegisterForm base req1)).1 = true.
Hypothesis answer1 :
  register_answer cl1
    (DStr (first_value (request_form req1) "localpart"))
    (DStr (first_value (request_form req1) "password")) id1
  = Returns jid1.

(** ... and a reset request that succeeds with [jid2]. *)
Variable cl2 : Client.
Variable req2 : Request.
Variable id2 : string.
Variable invite2 : Invite.
Variable localpart : string.
Variable jid2 : string.
Hypothesis fetch2 : invite_answer cl2 id2 = Returns invite2.
Hypothesis reset_type : reset_localpart invite2 = Some localpart.
Hypothesis valid2 : (validate_on_submit req2 (ResetForm base req2)).1 = true.
Hypothesis answer2 :
  register_answer cl2 (DStr localpart)
    (DStr (first_value (request_form req2) "password")) id2
  = Returns jid2.

Lemma register_writes (w : World) :
  ∃ w1,
    register cl1 base req1 id1 w = (Returns (redirect (url_for ".success" [])), w1)
    ∧ http_session w1 = <[INVITE_SESSION_JID := jid1]> (http_session w)
    ∧ stored_jid w1 = jid1.
Proof.
  eexists. split; [by eapply register_success|].
  split; [done | apply stored_jid_insert].
Qed.

Lemma reset_writes (w : World) :
  ∃ w2,
    reset cl2 base req2 id2 w
    = (Returns (redirect (url_for ".reset_success" [])), w2)
    ∧ http_session w2 = <[INVITE_SESSION_JID := jid2]> (http_session w)
    ∧ stored_jid w2 = jid2.
Proof.
  eexists. split; [by eapply reset_success_call|].
  split; [done | apply stored_jid_insert].
Qed.

(** C9: a successful register or reset call writes the returned
    identifier under the session's one key and redirects to its success
    page; the two success pages show the stored identifier, the empty
    string when none is stored, and leave the session as it is, so that
    a page visited twice shows the same identifier both times. *)
Theorem session_identifier_flow (w : World) :
  (∃ w1,
     register cl1 base req1 id1 w = (Returns (redirect (url_for ".success" [])), w1)
     ∧ http_session w1 = <[INVITE_SESSION_JID := jid1]> (http_session w)
     ∧ (r1 ← success; r2 ← success; mret (r1, r2)) w1
       = (Returns (success_page jid1, success_page jid1), w1))
  ∧ (∃ w2,
       reset cl2 base req2 id2 w
       = (Returns (redirect (url_for ".reset_success" [])), w2)
       ∧ http_session w2 = <[INVITE_SESSION_JID := jid2]> (http_session w)
       ∧ (r1 ← reset_success; r2 ← reset_success; mret (r1, r2)) w2
         = (Returns (reset_success_page jid2, reset_success_page jid2), w2))
  ∧ (∀ w', success w' = (Returns (success_page (stored_jid w')), w')
           ∧ reset_success w' = (Returns (reset_success_page (stored_jid w')), w'))
  ∧ (∀ w', http_session w' !! INVITE_SESSION_JID = None →
           success w' = (Returns (success_page ""), w')
           ∧ reset_success w' = (Returns (reset_success_page ""), w')).
Proof.
  split; [|split; [|split]].
  - destruct (register_writes w) as (w1 & Hrun & Hsession & Hjid).
    exists w1. repeat split; [done | done |].
    unfold mbind, M_bind. rewrite !(proj1 (success_reads w1)), Hjid. done.
  - destruct (reset_writes w) as (w2 & Hrun & Hsession & Hjid).
    exists w2. repeat split; [done | done |].
    unfold mbind, M_bind. rewrite !(proj2 (success_reads w2)), Hjid. done.
  - apply success_reads.
  - intros w' Hnone. unfold success, reset_success, success_page,
      reset_success_page. unfold_monad. by rewrite Hnone.
Qed.

(** C10: both flows write the same session key, and both success pages
    read it: each page shows the identifier written last, by whichever
    flow.  After a registration alone, the reset-success page shows the
    registration's identifier; after a reset that follows, both pages
    show the reset's; and likewise in the other order. *)
Theorem shared_session_key (w : World) :
  (∃ w1 w2,
     register cl1 base req1 id1 w = (Returns (redirect (url_for ".success" [])), w1)
     ∧ reset_success w1 = (Returns (reset_success_page jid1), w1)
     ∧ success w1 = (Returns (success_page jid1), w1)
     ∧ reset cl2 base req2 id2 w1
       = (Returns (redirect (url_for ".reset_success" [])), w2)
     ∧ success w2 = (Returns (success_page jid2), w2)
     ∧ reset_success w2 = (Returns (reset_success_page jid2), w2))
  ∧ (∃ w1 w2,
       reset cl2 base req2 id2 w
       = (Returns (redirect (url_for ".reset_success" [])), w1)
       ∧ success w1 = (Returns (success_page jid2), w1)
       ∧ register cl1 base req1 id1 w1
         = (Returns (redirect (url_for ".success" [])), w2)
       ∧ success w2 = (Returns (success_page jid1), w2)
       ∧ reset_success w2 = (Returns (reset_success_page jid1), w2)).
Proof.
  split.
  - destruct (register_writes w) as (w1 & Hrun1 & _ & Hjid1).
    destruct (reset_writes w1) as (w2 & Hrun2 & _ & Hjid2).
    exists w1, w2.
    destruct (success_reads w1) as [Hs1 Hr1].
    destruct (success_reads w2) as [Hs2 Hr2].
    rewrite Hjid1 in Hs1, Hr1. rewrite Hjid2 in Hs2, Hr2. done.
  - destruct (reset_writes w) as (w1 & Hrun1 & _ & Hjid1).
    destruct (register_writes w1) as (w2 & Hrun2 & _ & Hjid2).
    exists w1, w2.
    destruct (success_reads w1) as [Hs1 Hr1].
    destruct (success_reads w2) as [Hs2 Hr2].
    rewrite Hjid1 in Hs1, Hr1. rewrite Hjid2 in Hs2, Hr2. done.
Qed.

End SessionFlows.

Lemma session_identifier_flow_witness :
  ∃ w1,
    register (constant_client (Returns register_invite) (Returns "bob@example.org"))
      [] (post [("localpart", "bob"); ("password", "pw");
                ("password_confirm", "pw")]) "abc" empty_world
    = (Returns (redirect (url_for ".success" [])), w1)
    ∧ http_session w1 = <[INVITE_SESSION_JID := "bob@example.org"]> ∅
    ∧ (r1 ← success; r2 ← success; mret (r1, r2)) w1
      = (Returns (success_page "bob@example.org", success_page "bob@example.org"),
         w1).
Proof.
  exact (proj1 (session_identifier_flow []
    (constant_client (Returns register_invite) (Returns "bob@example.org"))
    (post [("localpart", "bob"); ("password", "pw"); ("password_confirm", "pw")])
    "abc" register_invite "bob@example.org" eq_refl eq_refl eq_refl eq_refl
    (constant_client (Returns reset_invite) (Returns "alice@example.org"))
    (post [("password", "pw"); ("password_confirm", "pw")])
    "abc" reset_invite "alice" "alice@example.org" eq_refl eq_refl eq_refl eq_refl
    empty_world)).
Defined.

Lemma shared_session_key_witness :
  ∃ w1 w2,
    register (constant_client (Returns register_invite) (Returns "bob@example.org"))
      [] (post [("localpart", "bob"); ("password", "pw");
                ("password_confirm", "pw")]) "abc" empty_world
    = (Returns (redirect (url_for ".success" [])), w1)
    ∧ reset_success w1 = (Returns (reset_success_page "bob@example.org"), w1)
    ∧ success w1 = (Returns (success_page "bob@example.org"), w1)
    ∧ reset (constant_client (Returns reset_invite) (Returns "alice@example.org"))
        [] (post [("password", "pw"); ("password_confirm", "pw")]) "abc" w1
      = (Returns (redirect (url_for ".reset_success" [])), w2)
    ∧ success w2 = (Returns (success_page "alice@example.org"), w2)
    ∧ reset_success w2 = (Returns (reset_success_page "alice@example.org"), w2).
Proof.
  exact (proj1 (shared_session_key []
    (constant_client (Returns register_invite) (Returns "bob@example.org"))
    (post [("localpart", "bob"); ("password", "pw"); ("password_confirm", "pw")])
    "abc" register_invite "bob@example.org" eq_refl eq_refl eq_refl eq_refl
    (constant_client (Returns reset_invite) (Returns "alice@example.org"))
    (post [("password", "pw"); ("password_confirm", "pw")])
    "abc" reset_invite "alice" "alice@example.org" eq_refl eq_refl eq_refl eq_refl
    empty_world)).
Defined.

(** * Further properties of the handlers *)

(** ** The branches of [register] and [reset]

    Together with [register_not_valid], [register_success],
    [reset_not_valid] and [reset_success_call], the lemmas below give the
    result of the two handlers on every input. *)

Lemma register_fetch_raises (cl : Client) (base : list (string * UnboundField))
    (req : Request) (id_ : string) (w : World) (e : exn) :
  invite_answer cl id_ = Raises e →
  register cl base req id_ w
  = (match e with
     | ClientResponseError status =>
         if (status =? 404)%Z
         then Returns (redirect (url_for ".view" [("id_", id_)]))
         else Raises (UnboundLocalError "invite")
     | _ => Raises e
     end, after_fetch w id_).
Proof.
  intros Hfetch. run_handler. destruct e as [status| | | |]; try done.
  by destruct (status =? 404)%Z.
Qed.

Lemma reset_fetch_raises (cl : Client) (base : list (string * UnboundField))
    (req : Request) (id_ : string) (w : World) (e : exn) :
  invite_answer cl id_ = Raises e →
  reset cl base req id_ w
  = (match e with
     | ClientResponseError status =>
         if (status =? 404)%Z
         then Returns (redirect (url_for ".view" [("id_", id_)]))
         else Raises (UnboundLocalError "invite")
     | _ => Raises e
     end, after_fetch w id_).
Proof.
  intros Hfetch. run_handler. destruct e as [status| | | |]; try done.
  by destruct (status =? 404)%Z.
Qed.

Lemma view_fetch_raises (cl : Client) (config : gmap string string)
    (urlencode : list (string * string) → string) (id_ : string) (w : World)
    (e : exn) :
  invite_answer cl id_ = Raises e →
  view cl config urlencode id_ w
  = (match e with
     | ClientResponseError status =>
         if (status =? 404)%Z
         then Returns (body_status (render_template "invite_invalid.html" []) 404)
         else Raises e
     | _ => Raises e
     end, after_fetch w id_).
Proof.
  intros Hfetch. run_handler. destruct e as [status| | | |]; try done.
  by destruct (status =? 404)%Z.
Qed.

Lemma register_of_reset_invite (cl : Client) (base : list (string * UnboundField))
    (req : Request) (id_ : string) (w : World) (invite : Invite)
    (localpart : string) :
  invite_answer cl id_ = Returns invite →
  reset_localpart invite = Some localpart →
  register cl base req id_ w
  = (Returns (redirect (url_for ".reset" [("id_", id_)])), after_fetch w id_).
Proof. intros Hfetch Htype. by run_handler. Qed.

Lemma reset_of_register_invite (cl : Client) (base : list (string * UnboundField))
    (req : Request) (id_ : string) (w : World) (invite : Invite) :
  invite_answer cl id_ = Returns invite →
  reset_localpart invite = None →
  reset cl base req id_ w
  = (Returns (redirect (url_for ".register" [("id_", id_)])), after_fetch w id_).
Proof. intros Hfetch Htype. by run_handler. Qed.

Lemma register_call_raises (cl : Client) (base : list (string * UnboundField))
    (req : Request) (id_ : string) (w : World) (invite : Invite) (e : exn) :
  let username := DStr (first_value (request_form req) "localpart") in
  let password := DStr (first_value (request_form req) "password") in
  let again message :=
    Returns (body_only (render_template "invite_register.html"
      [("invite", AInvite invite);
       ("form", AForm
          (set_field "localpart"
             (mkField StringField "Username" []
                (Some (getlist (request_form req) "localpart")) username [message])
             (validate_on_submit req (RegisterForm base req)).2))])) in
  invite_answer cl id_ = Returns invite →
  reset_localpart invite = None →
  (validate_on_submit req (RegisterForm base req)).1 = true →
  register_answer cl username password id_ = Raises e →
  register cl base req id_ w
  = (match e with
     | ClientResponseError status =>
         if (status =? 409)%Z then again "That username is already taken."
         else if (status =? 403)%Z then
           again "Registration was declined for unknown reasons."
         else if (status =? 400)%Z then again "The username is not valid."
         else if (status =? 404)%Z then
           Returns (redirect (url_for ".view" [("id_", id_)]))
         else Raises e
     | _ => Raises e
     end,
     mkWorld (http_session w)
       (remote_calls w ++ [CallGetInvite id_; CallRegister username password id_])).
Proof.
  intros username password again Hfetch Htype Hv Hans.
  destruct (register_valid_form base req Hv) as (form' & Hform & Hlp & Hpw).
  run_handler. rewrite Hform. simpl.
  unfold append_error, getattr. unfold_monad. simpl.
  rewrite Hpw, Hlp. simpl. fold username password. rewrite Hans. simpl.
  rewrite <- app_assoc. simpl. unfold again. rewrite Hform. simpl.
  destruct e as [status| | | |]; try done.
  destruct (status =? 409)%Z; [simpl; by rewrite ?Hlp|].
  destruct (status =? 403)%Z; [simpl; by rewrite ?Hlp|].
  destruct (status =? 400)%Z; [simpl; by rewrite ?Hlp|].
  by destruct (status =? 404)%Z.
Qed.

Lemma reset_call_raises (cl : Client) (base : list (string * UnboundField))
    (req : Request) (id_ : string) (w : World) (invite : Invite)
    (localpart : string) (e : exn) :
  let password := DStr (first_value (request_form req) "password") in
  let form' := (validate_on_submit req (ResetForm base req)).2 in
  invite_answer cl id_ = Returns invite →
  reset_localpart invite = Some localpart →
  (validate_on_submit req (ResetForm base req)).1 = true →
  register_answer cl (DStr localpart) password id_ = Raises e →
  reset cl base req id_ w
  = (match e with
     | ClientResponseError status =>
         if (status =? 403)%Z then
           match lookup_field "localpart" form' with
           | Some f =>
               Returns (body_only (render_template "invite_reset.html"
                 [("invite", AInvite invite);
                  ("form", AForm
                     (set_field "localpart"
                        (with_errors f
                           (errors f
                            ++ ["Registration was declined for unknown reasons."]))
                        form'))]))
           | None => Raises (AttributeError "localpart")
           end
         else if (status =? 404)%Z then
           Returns (redirect (url_for ".view" [("id_", id_)]))
         else Raises e
     | _ => Raises e
     end,
     mkWorld (http_session w)
       (remote_calls w
        ++ [CallGetInvite id_; CallRegister (DStr localpart) password id_])).
Proof.
  intros password form' Hfetch Htype Hv Hans.
  destruct (reset_valid_form base req Hv) as (form0 & Hform & Hpw & _).
  run_handler. unfold form'. rewrite Hform. simpl.
  unfold append_error, getattr. unfold_monad. simpl.
  rewrite Hpw. simpl. fold password. rewrite Hans. simpl.
  rewrite <- app_assoc. simpl.
  destruct e as [status| | | |]; try done.
  destruct (status =? 403)%Z; [by destruct (lookup_field "localpart" form0)|].
  by destruct (status =? 404)%Z.
Qed.

(** The two handlers on every input, branch by branch. *)
Lemma register_unfold (cl : Client) (base : list (string * UnboundField))
    (req : Request) (id_ : string) (w : World) :
  let username := DStr (first_value (request_form req) "localpart") in
  let password := DStr (first_value (request_form req) "password") in
  let called : list Call :=
    (remote_calls w
     ++ [CallGetInvite id_; CallRegister username password id_])%list in
  let page invite form :=
    Returns (body_only (render_template "invite_register.html"
      [("invite", AInvite invite); ("form", AForm form)])) in
  let form' := (validate_on_submit req (RegisterForm base req)).2 in
  let again invite message :=
    page invite
      (set_field "localpart"
         (mkField StringField "Username" []
            (Some (getlist (request_form req) "localpart")) username [message])
         form') in
  register cl base req id_ w
  = match invite_answer cl id_ with
    | Raises e =>
        (match e with
         | ClientResponseError status =>
             if (status =? 404)%Z
             then Returns (redirect (url_for ".view" [("id_", id_)]))
             else Raises (UnboundLocalError "invite")
         | _ => Raises e
         end, after_fetch w id_)
    | Returns invite =>
        match reset_localpart invite with
        | Some _ =>
            (Returns (redirect (url_for ".reset" [("id_", id_)])),
             after_fetch w id_)
        | None =>
            if (validate_on_submit req (RegisterForm base req)).1 then
              match register_answer cl username password id_ with
              | Returns jid =>
                  (Returns (redirect (url_for ".success" [])),
                   mkWorld (<[INVITE_SESSION_JID := jid]> (http_session w)) called)
              | Raises e =>
                  (match e with
                   | ClientResponseError status =>
                       if (status =? 409)%Z then
                         again invite "That username is already taken."
                       else if (status =? 403)%Z then
                         again invite "Registration was declined for unknown reasons."
                       else if (status =? 400)%Z then
                         again invite "The username is not valid."
                       else if (status =? 404)%Z then
                         Returns (redirect (url_for ".view" [("id_", id_)]))
                       else Raises e
                   | _ => Raises e
                   end, mkWorld (http_session w) called)
              end
            else (page invite form', after_fetch w id_)
        end
    end.
Proof.
  intros username password called page form' again.
  destruct (invite_answer cl id_) as [invite|e] eqn:Hfetch;
    [|by eapply register_fetch_raises].
  destruct (reset_localpart invite) as [lp|] eqn:Htype;
    [by eapply register_of_reset_invite|].
  destruct ((validate_on_submit req (RegisterForm base req)).1) eqn:Hv;
    [|by eapply register_not_valid].
  destruct (register_answer cl username password id_) as [jid|e] eqn:Hans.
  - by eapply register_success.
  - by eapply register_call_raises.
Qed.

Lemma reset_unfold (cl : Client) (base : list (string * UnboundField))
    (req : Request) (id_ : string) (w : World) :
  let password := DStr (first_value (request_form req) "password") in
  let called localpart : list Call :=
    (remote_calls w
     ++ [CallGetInvite id_; CallRegister (DStr localpart) password id_])%list in
  let page invite form :=
    Returns (body_only (render_template "invite_reset.html"
      [("invite", AInvite invite); ("form", AForm form)])) in
  let form' := (validate_on_submit req (ResetForm base req)).2 in
  reset cl base req id_ w
  = match invite_answer cl id_ with
    | Raises e =>
        (match e with
         | ClientResponseError status =>
             if (status =? 404)%Z
             then Returns (redirect (url_for ".view" [("id_", id_)]))
             else Raises (UnboundLocalError "invite")
         | _ => Raises e
         end, after_fetch w id_)
    | Returns invite =>
        match reset_localpart invite with
        | None =>
            (Returns (redirect (url_for ".register" [("id_", id_)])),
             after_fetch w id_)
        | Some localpart =>
            if (validate_on_submit req (ResetForm base req)).1 then
              match register_answer cl (DStr localpart) password id_ with
              | Returns jid =>
                  (Returns (redirect (url_for ".reset_success" [])),
                   mkWorld (<[INVITE_SESSION_JID := jid]> (http_session w))
                     (called localpart))
              | Raises e =>
                  (match e with
                   | ClientResponseError status =>
                       if (status =? 403)%Z then
                         match lookup_field "localpart" form' with
                         | Some f =>
                             page invite
                               (set_field "localpart"
                                  (with_errors f
                                     (errors f
                                      ++ ["Registration was declined for unknown reasons."]))
                                  form')
                         | None => Raises (AttributeError "localpart")
                         end
                       else if (status =? 404)%Z then
                         Returns (redirect (url_for ".view" [("id_", id_)]))
                       else Raises e
                   | _ => Raises e
                   end, mkWorld (http_session w) (called localpart))
              end
            else (page invite form', after_fetch w id_)
        end
    end.
Proof.
  intros password called page form'.
  destruct (invite_answer cl id_) as [invite|e] eqn:Hfetch;
    [|by eapply reset_fetch_raises].
  destruct (reset_localpart invite) as [lp|] eqn:Htype;
    [|by eapply reset_of_register_invite].
  destruct ((validate_on_submit req (ResetForm base req)).1) eqn:Hv;
    [|by eapply reset_not_valid].
  destruct (register_answer cl (DStr lp) password id_) as [jid|e] eqn:Hans.
  - by eapply reset_success_call.
  - by eapply reset_call_raises.
Qed.

Lemma view_unfold (cl : Client) (config : gmap string string)
    (urlencode : list (string * string) → string) (id_ : string) (w : World) :
  view cl config urlencode id_ w
  = (match invite_answer cl id_ with
     | Raises e =>
         match e with
         | ClientResponseError status =>
             if (status =? 404)%Z
             then Returns (body_status (render_template "invite_invalid.html" []) 404)
             else Raises e
         | _ => Raises e
         end
     | Returns invite =>
         match reset_localpart invite with
         | Some localpart =>
             Returns (body_only
               (render_template "invite_reset_view.html"
                  [("invite", AInvite invite);
                   ("invite_id", AStr id_);
                   ("account_jid", AStr (localpart +:+ "@" +:+ domain invite))]))
         | None =>
             match config !! "APPLE_STORE_URL" with
             | None => Raises (KeyError "APPLE_STORE_URL")
             | Some apple_store_url =>
                 Returns (quart_Response
                   (render_template "invite_view.html"
                      [("invite", AInvite invite);
                       ("play_store_url",
                        AStr ("market://details?" +:+
                              urlencode
                                [("id", "org.snikket.android");
                                 ("referrer", xmpp_uri invite);
                                 ("pcampaignid",
                                  "pcampaignidMKT-Other-global-all-co-prtnr-py-PartBadge-Mar2515-1")]));
                       ("apple_store_url", AStr apple_store_url);
                       ("f_droid_url", AStr "market://details?id=org.snikket.android");
                       ("invite_id", AStr id_)])
                   [("Link",
                     "<" +:+ xmpp_uri invite +:+ "> rel=" +:+ dquote
                     +:+ "alternate" +:+ dquote)])
             end
         end
     end, after_fetch w id_).
Proof.
  destruct (invite_answer cl id_) as [invite|e] eqn:Hfetch.
  - run_handler. destruct (reset_localpart invite); simpl; [done|].
    by destruct (config !! "APPLE_STORE_URL").
  - by rewrite (view_fetch_raises _ _ _ _ _ _ Hfetch).
Qed.

(** ** What a valid form guarantees *)

Lemma confirm_errors_nil (fd : MultiDict) :
  confirm_errors fd = [] →
  first_value fd "password_confirm" ≠ ""
  ∧ first_value fd "password_confirm" = first_value fd "password".
Proof.
  unfold confirm_errors. case_bool_decide; [done|]. by case_bool_decide.
Qed.

Lemma valid_confirmation (base own : list (string * UnboundField))
    (req : Request) (l l' : string) (vs : list Validator) :
  lookup_field "password_confirm" own
  = Some (mkUnbound PasswordField l
            [InputRequired; EqualTo "password" "The passwords must match."]) →
  lookup_field "password" own = Some (mkUnbound PasswordField l' vs) →
  (validate_on_submit req (instantiate (class_fields base own) req)).1 = true →
  method req = POST
  ∧ first_value (request_form req) "password_confirm" ≠ ""
  ∧ first_value (request_form req) "password_confirm"
    = first_value (request_form req) "password".
Proof.
  intros Hc Hp Hv. pose proof (valid_is_submitted _ _ Hv) as Hsub.
  split; [unfold is_submitted in Hsub; by destruct (method req)|].
  rewrite validate_on_submit_submitted in Hv by done.
  destruct (validated_confirm_field base own req Hsub l l' vs Hc Hp)
    as (f & Hf & _ & Hef).
  apply confirm_errors_nil. rewrite <- Hef. by eapply validate_true.
Qed.

Lemma register_valid_confirmation (base : list (string * UnboundField))
    (req : Request) :
  (validate_on_submit req (RegisterForm base req)).1 = true →
  method req = POST
  ∧ first_value (request_form req) "password_confirm" ≠ ""
  ∧ first_value (request_form req) "password_confirm"
    = first_value (request_form req) "password".
Proof. by apply valid_confirmation with (l := "Confirm password") (l' := "Password") (vs := []). Qed.

Lemma reset_valid_confirmation (base : list (string * UnboundField))
    (req : Request) :
  (validate_on_submit req (ResetForm base req)).1 = true →
  method req = POST
  ∧ first_value (request_form req) "password_confirm" ≠ ""
  ∧ first_value (request_form req) "password_confirm"
    = first_value (request_form req) "password".
Proof. by apply valid_confirmation with (l := "Confirm password") (l' := "Password") (vs := []). Qed.

(** ** Effects of the handlers *)

(** X1: whatever the remote side answers and whatever [view] returns or
    raises, it has made one remote call, the fetch of the invite, and has
    left the session as it was. *)
Theorem view_effects (cl : Client) (config : gmap string string)
    (urlencode : list (string * string) → string) (id_ : string) (w : World) :
  remote_calls (view cl config urlencode id_ w).2
  = (remote_calls w ++ [CallGetInvite id_])%list
  ∧ http_session (view cl config urlencode id_ w).2 = http_session w.
Proof. by rewrite view_unfold. Qed.

(** X3: [register] always fetches the invite first and makes at most one
    register call after it; it makes one only for a POST to a
    register-type invite whose confirmation is not empty and equals the
    password, and then with the submitted username and password and the
    invite id as token. *)
Theorem register_call_discipline (cl : Client)
    (base : list (string * UnboundField)) (req : Request) (id_ : string)
    (w : World) :
  let fd := request_form req in
  let w' := (register cl base req id_ w).2 in
  remote_calls w' = (remote_calls w ++ [CallGetInvite id_])%list
  ∨ (remote_calls w'
     = (remote_calls w
        ++ [CallGetInvite id_;
            CallRegister (DStr (first_value fd "localpart"))
              (DStr (first_value fd "password")) id_])%list
     ∧ method req = POST
     ∧ first_value fd "password_confirm" ≠ ""
     ∧ first_value fd "password_confirm" = first_value fd "password"
     ∧ ∃ invite, invite_answer cl id_ = Returns invite
                 ∧ reset_localpart invite = None).
Proof.
  intros fd w'. unfold w'. rewrite register_unfold.
  destruct (invite_answer cl id_) as [invite|e] eqn:Hfetch; [|by left].
  destruct (reset_localpart invite) as [lp|] eqn:Htype; [by left|].
  destruct ((validate_on_submit req (RegisterForm base req)).1) eqn:Hv; [|by left].
  right. destruct (register_valid_confirmation base req Hv) as (Hpost & Hne & Heq).
  split; [by destruct (register_answer cl _ _ _)|].
  repeat split; [done | done | done |]. by exists invite.
Qed.

(** X4: [reset] always fetches the invite first and makes at most one
    register call after it; it makes one only for a POST to a reset-type
    invite whose confirmation is not empty and equals the password, and
    then with the invite's [reset_localpart] as username, whatever the
    request carries under that name. *)
Theorem reset_call_discipline (cl : Client)
    (base : list (string * UnboundField)) (req : Request) (id_ : string)
    (w : World) :
  let fd := request_form req in
  let w' := (reset cl base req id_ w).2 in
  remote_calls w' = (remote_calls w ++ [CallGetInvite id_])%list
  ∨ (method req = POST
     ∧ first_value fd "password_confirm" ≠ ""
     ∧ first_value fd "password_confirm" = first_value fd "password"
     ∧ ∃ invite localpart,
         invite_answer cl id_ = Returns invite
         ∧ reset_localpart invite = Some localpart
         ∧ remote_calls w'
           = (remote_calls w
              ++ [CallGetInvite id_;
                  CallRegister (DStr localpart)
                    (DStr (first_value fd "password")) id_])%list).
Proof.
  intros fd w'. unfold w'. rewrite reset_unfold.
  destruct (invite_answer cl id_) as [invite|e] eqn:Hfetch; [|by left].
  destruct (reset_localpart invite) as [lp|] eqn:Htype; [|by left].
  destruct ((validate_on_submit req (ResetForm base req)).1) eqn:Hv; [|by left].
  right. destruct (reset_valid_confirmation base req Hv) as (Hpost & Hne & Heq).
  repeat split; [done | done | done |]. exists invite, lp.
  repeat split; [done|]. by destruct (register_answer cl _ _ _).
Qed.


(** X2: redirects cannot chase each other.  [view] never answers with a
    redirect, and for one invite id [register] and [reset] never point at
    each other: if [register] redirects to the reset endpoint, [reset]
    does not redirect to the register endpoint, whatever the requests and
    the session. *)
Theorem redirects_do_not_cycle (cl : Client)
    (base : list (string * UnboundField)) (config : gmap string string)
    (urlencode : list (string * string) → string) (req req' : Request)
    (id_ : string) (w w' : World) :
  (∀ location, (view cl config urlencode id_ w).1 ≠ Returns (redirect location))
  ∧ ¬ (∃ values values',
         (register cl base req id_ w).1
         = Returns (redirect (url_for ".reset" values))
         ∧ (reset cl base req' id_ w').1
           = Returns (redirect (url_for ".register" values'))).
Proof.
  split.
  - intros location. rewrite view_unfold. simpl.
    repeat case_match; congruence.
  - intros (values & values' & Hreg & Hres).
    rewrite register_unfold in Hreg. rewrite reset_unfold in Hres.
    destruct (invite_answer cl id_) as [invite|e]; simpl in *.
    + destruct (reset_localpart invite); simpl in *.
      * repeat case_match; simpl in *; congruence.
      * repeat case_match; simpl in *; congruence.
    + repeat case_match; simpl in *; congruence.
Qed.

(** ** Requests that submit nothing *)



(** ** Exceptions that are not response errors *)

(** X7: an exception of the remote client that is not a
    [ClientResponseError] (a connection failure, say) is caught by none of
    the handlers: raised by the fetch, it leaves [view], [register] and
    [reset] as it is. *)
Theorem foreign_fetch_exception_passes (cl : Client)
    (base : list (string * UnboundField)) (config : gmap string string)
    (urlencode : list (string * string) → string) (req : Request)
    (id_ : string) (w : World) (e : exn) :
  (∀ status, e ≠ ClientResponseError status) →
  invite_answer cl id_ = Raises e →
  view cl config urlencode id_ w = (Raises e, after_fetch w id_)
  ∧ register cl base req id_ w = (Raises e, after_fetch w id_)
  ∧ reset cl base req id_ w = (Raises e, after_fetch w id_).
Proof.
  intros Hforeign Hfetch.
  rewrite view_unfold, register_unfold, reset_unfold, Hfetch.
  destruct e as [status| | | |]; try done. by destruct (Hforeign status).
Qed.

Lemma foreign_fetch_exception_passes_witness :
  register (constant_client (Raises (OtherError "ClientConnectionError")) (Returns ""))
    [] (post []) "abc" empty_world
  = (Raises (OtherError "ClientConnectionError"), after_fetch empty_world "abc").
Proof.
  refine (proj1 (proj2 (foreign_fetch_exception_passes
            (constant_client (Raises (OtherError "ClientConnectionError")) (Returns ""))
            [] sample_config plain_urlencode (post []) "abc" empty_world
            (OtherError "ClientConnectionError") _ eq_refl))).
  discriminate.
Defined.

(** X8: the register call of a valid submission.  When it fails with an
    exception that is not a [ClientResponseError], or with a status the
    handler does not name (other than 409, 403, 400, 404 in [register],
    other than 403, 404 in [reset]), the handler raises that same
    exception; the session is not written. *)
Theorem register_call_failure_passes (cl : Client)
    (base : list (string * UnboundField)) (req : Request) (id_ : string)
    (w : World) (invite : Invite) (e : exn) :
  invite_answer cl id_ = Returns invite →
  match reset_localpart invite with
  | None =>
      (validate_on_submit req (RegisterForm base req)).1 = true →
      register_answer cl
        (DStr (first_value (request_form req) "localpart"))
        (DStr (first_value (request_form req) "password")) id_ = Raises e →
      (∀ status, e = ClientResponseError status → status ∉ [409; 403; 400; 404]) →
      (register cl base req id_ w).1 = Raises e
      ∧ http_session (register cl base req id_ w).2 = http_session w
  | Some localpart =>
      (validate_on_submit req (ResetForm base req)).1 = true →
      register_answer cl (DStr localpart)
        (DStr (first_value (request_form req) "password")) id_ = Raises e →
      (∀ status, e = ClientResponseError status → status ∉ [403; 404]) →
      (reset cl base req id_ w).1 = Raises e
      ∧ http_session (reset cl base req id_ w).2 = http_session w
  end.
Proof.
  intros Hfetch. destruct (reset_localpart invite) as [lp|] eqn:Htype.
  - intros Hv Hans Hunmapped.
    rewrite reset_unfold, Hfetch, Htype, Hv, Hans. simpl.
    destruct e as [status| | | |]; try done.
    specialize (Hunmapped status eq_refl).
    repeat (apply not_elem_of_cons in Hunmapped as [Hne Hunmapped];
            apply Z.eqb_neq in Hne; rewrite Hne; clear Hne).
    done.
  - intros Hv Hans Hunmapped.
    rewrite register_unfold, Hfetch, Htype, Hv, Hans. simpl.
    destruct e as [status| | | |]; try done.
    specialize (Hunmapped status eq_refl).
    repeat (apply not_elem_of_cons in Hunmapped as [Hne Hunmapped];
            apply Z.eqb_neq in Hne; rewrite Hne; clear Hne).
    done.
Qed.

Lemma register_call_failure_passes_witness :
  (register (constant_client (Returns register_invite)
               (Raises (ClientResponseError 500)))
     [] (post [("localpart", "bob"); ("password", "pw");
               ("password_confirm", "pw")]) "abc" empty_world).1
  = Raises (ClientResponseError 500)
  ∧ (reset (constant_client (Returns reset_invite)
              (Raises (OtherError "ClientConnectionError")))
       [] (post [("password", "pw"); ("password_confirm", "pw")]) "abc"
       empty_world).1
    = Raises (OtherError "ClientConnectionError").
Proof.
  split.
  - refine (proj1 (register_call_failure_passes
              (constant_client (Returns register_invite)
                 (Raises (ClientResponseError 500)))
              [] (post [("localpart", "bob"); ("password", "pw");
                        ("password_confirm", "pw")]) "abc" empty_world
              register_invite (ClientResponseError 500) eq_refl eq_refl eq_refl _)).
    intros status [= <-]. apply (bool_decide_unpack _). reflexivity.
  - refine (proj1 (register_call_failure_passes
              (constant_client (Returns reset_invite)
                 (Raises (OtherError "ClientConnectionError")))
              [] (post [("password", "pw"); ("password_confirm", "pw")]) "abc"
              empty_world reset_invite (OtherError "ClientConnectionError")
              eq_refl eq_refl eq_refl _)).
    intros status. discriminate.
Defined.

(** X9: a valid reset submission.  The register call carries the invite's
    [reset_localpart] as username; when it returns an identifier, the
    identifier is stored in the session and the browser is sent to the
    reset-success page; when it fails with status 404, the browser is
    sent back to the view endpoint and the session is not written. *)
Theorem reset_submission_outcomes (cl : Client)
    (base : list (string * UnboundField)) (req : Request) (id_ : string)
    (w : World) (invite : Invite) (localpart : string) :
  let password := DStr (first_value (request_form req) "password") in
  let called : list Call :=
    (remote_calls w
     ++ [CallGetInvite id_; CallRegister (DStr localpart) password id_])%list in
  invite_answer cl id_ = Returns invite →
  reset_localpart invite = Some localpart →
  (validate_on_submit req (ResetForm base req)).1 = true →
  (∀ jid, register_answer cl (DStr localpart) password id_ = Returns jid →
          reset cl base req id_ w
          = (Returns (redirect (url_for ".reset_success" [])),
             mkWorld (<[INVITE_SESSION_JID := jid]> (http_session w)) called))
  ∧ (register_answer cl (DStr localpart) password id_
       = Raises (ClientResponseError 404) →
     reset cl base req id_ w
     = (Returns (redirect (url_for ".view" [("id_", id_)])),
        mkWorld (http_session w) called)).
Proof.
  intros password called Hfetch Htype Hv. subst password called. split.
  - intros jid Hans. by rewrite reset_unfold, Hfetch, Htype, Hv, Hans.
  - intros Hans. by rewrite reset_unfold, Hfetch, Htype, Hv, Hans.
Qed.

Lemma reset_submission_outcomes_witness :
  reset (constant_client (Returns reset_invite) (Returns "alice@example.org"))
    [] (post [("localpart", "mallory"); ("password", "pw");
              ("password_confirm", "pw")]) "abc" empty_world
  = (Returns (redirect (url_for ".reset_success" [])),
     mkWorld (<[INVITE_SESSION_JID := "alice@example.org"]> ∅)
       [CallGetInvite "abc"; CallRegister (DStr "alice") (DStr "pw") "abc"]).
Proof.
  exact (proj1 (reset_submission_outcomes
           (constant_client (Returns reset_invite) (Returns "alice@example.org"))
           [] (post [("localpart", "mallory"); ("password", "pw");
                     ("password_confirm", "pw")]) "abc" empty_world
           reset_invite "alice" eq_refl eq_refl eq_refl)
         "alice@example.org" eq_refl).
Defined.

(** ** Validation of a submission *)

(** X10: whatever fields the base class adds, a register or reset form
    validates only for a POST whose password confirmation is not empty
    and equals the password. *)
Theorem validation_requires_confirmed_password
    (base : list (string * UnboundField)) (req : Request) :
  (validate_on_submit req (RegisterForm base req)).1 = true
  ∨ (validate_on_submit req (ResetForm base req)).1 = true →
  method req = POST
  ∧ first_value (request_form req) "password_confirm" ≠ ""
  ∧ first_value (request_form req) "password_confirm"
    = first_value (request_form req) "password".
Proof.
  intros [Hv|Hv];
    [by apply (register_valid_confirmation base) | by apply (reset_valid_confirmation base)].
Qed.

Lemma validation_requires_confirmed_password_witness :
  first_value [("password", "pw"); ("password_confirm", "pw")] "password_confirm"
  = first_value [("password", "pw"); ("password_confirm", "pw")] "password".
Proof.
  exact (proj2 (proj2 (validation_requires_confirmed_password []
           (post [("password", "pw"); ("password_confirm", "pw")])
           (or_intror eq_refl)))).
Defined.

(** X11: when the base class adds no field, that condition is also
    enough: a POST whose confirmation is not empty and equals the password
    validates both forms, whatever it carries as username and whether or
    not a username was sent at all. *)
Theorem confirmed_password_validates (req : Request) :
  method req = POST →
  first_value (request_form req) "password_confirm" ≠ "" →
  first_value (request_form req) "password_confirm"
    = first_value (request_form req) "password" →
  (validate_on_submit req (RegisterForm [] req)).1 = true
  ∧ (validate_on_submit req (ResetForm [] req)).1 = true.
Proof.
  intros Hpost Hne Heq.
  assert (is_submitted req = true) as Hsub
    by (unfold is_submitted; by rewrite Hpost).
  unfold validate_on_submit, RegisterForm, ResetForm, validate, instantiate.
  rewrite Hsub. unfold first_value in Hne, Heq. cbn.
  unfold validate_field, has_input. cbn.
  destruct (getlist (request_form req) "password_confirm") as [|c cs];
    [done|].
  destruct (getlist (request_form req) "password") as [|p ps]; cbn in *;
    subst; repeat (case_bool_decide; try done; cbn).
Qed.

Lemma confirmed_password_validates_witness :
  (validate_on_submit (post [("password", "pw"); ("password_confirm", "pw")])
     (RegisterForm [] (post [("password", "pw"); ("password_confirm", "pw")]))).1
  = true.
Proof.
  refine (proj1 (confirmed_password_validates
            (post [("password", "pw"); ("password_confirm", "pw")])
            eq_refl _ eq_refl)).
  discriminate.
Defined.

(** ** The view of a register-type invite *)

(** X12: the invite page needs the application's APPLE_STORE_URL: for a
    fetched register-type invite, [view] raises KeyError when the
    configuration lacks that key, after the fetch and without touching
    the session. *)
Theorem view_needs_apple_store_url (cl : Client) (config : gmap string string)
    (urlencode : list (string * string) → string) (id_ : string) (w : World)
    (invite : Invite) :
  invite_answer cl id_ = Returns invite →
  reset_localpart invite = None →
  config !! "APPLE_STORE_URL" = None →
  view cl config urlencode id_ w
  = (Raises (KeyError "APPLE_STORE_URL"), after_fetch w id_).
Proof.
  intros Hfetch Htype Hconfig.
  by rewrite view_unfold, Hfetch, Htype, Hconfig.
Qed.

Lemma view_needs_apple_store_url_witness :
  view (constant_client (Returns register_invite) (Returns "")) ∅
    plain_urlencode "abc" empty_world
  = (Raises (KeyError "APPLE_STORE_URL"), after_fetch empty_world "abc").
Proof.
  exact (view_needs_apple_store_url
           (constant_client (Returns register_invite) (Returns "")) ∅
           plain_urlencode "abc" empty_world register_invite
           eq_refl eq_refl eq_refl).
Defined.

(** X13: for a fetched register-type invite and a configured
    APPLE_STORE_URL, the invite page is given the invite, the Play-store
    URL [market://details?] followed by the URL-encoded query whose
    referrer is the invite's XMPP URI, the configured Apple-store URL,
    the fixed F-Droid URL and the invite id. *)
Theorem view_invite_page_context (cl : Client) (config : gmap string string)
    (urlencode : list (string * string) → string) (id_ : string) (w : World)
    (invite : Invite) (apple_store_url : string) :
  invite_answer cl id_ = Returns invite →
  reset_localpart invite = None →
  config !! "APPLE_STORE_URL" = Some apple_store_url →
  ∃ headers,
    view cl config urlencode id_ w
    = (Returns (quart_Response
         (render_template "invite_view.html"
            [("invite", AInvite invite);
             ("play_store_url",
              AStr ("market://details?" +:+
                    urlencode
                      [("id", "org.snikket.android");
                       ("referrer", xmpp_uri invite);
                       ("pcampaignid",
                        "pcampaignidMKT-Other-global-all-co-prtnr-py-PartBadge-Mar2515-1")]));
             ("apple_store_url", AStr apple_store_url);
             ("f_droid_url", AStr "market://details?id=org.snikket.android");
             ("invite_id", AStr id_)])
         headers),
       after_fetch w id_).
Proof.
  intros Hfetch Htype Hconfig. eexists.
  by rewrite view_unfold, Hfetch, Htype, Hconfig.
Qed.

Lemma view_invite_page_context_witness :
  ∃ headers w',
    view (constant_client (Returns register_invite) (Returns "")) sample_config
      plain_urlencode "abc" empty_world
    = (Returns (quart_Response
         (render_template "invite_view.html"
            [("invite", AInvite register_invite);
             ("play_store_url",
              AStr ("market://details?id=org.snikket.android"
                    +:+ "&referrer=xmpp:example.org?register;preauth=abc"
                    +:+ "&pcampaignid=pcampaignidMKT-Other-global-all-co-prtnr-py-PartBadge-Mar2515-1"));
             ("apple_store_url",
              AStr "https://apps.apple.com/app/snikket/id1545164189");
             ("f_droid_url", AStr "market://details?id=org.snikket.android");
             ("invite_id", AStr "abc")])
         headers), w').
Proof.
  destruct (view_invite_page_context
              (constant_client (Returns register_invite) (Returns ""))
              sample_config plain_urlencode "abc" empty_world register_invite
              "https://apps.apple.com/app/snikket/id1545164189"
              eq_refl eq_refl eq_refl) as [headers Hview].
  exists headers, (after_fetch empty_world "abc"). exact Hview.
Defined.

(** ** The store badge *)

(** X14: [apple_store_badge] names a badge under [img/apple/] of the
    static files: the one of the selected locale when that file exists,
    the English one otherwise.  So when the English badge is shipped, the
    file it names always exists. *)
Theorem apple_store_badge_exists (selected_locale : string)
    (badge_exists : string → bool) :
  badge_exists "en.svg" = true →
  ∃ filename,
    apple_store_badge selected_locale badge_exists
    = url_for "static" [("filename", "img/apple/" +:+ filename)]
    ∧ badge_exists filename = true
    ∧ (filename = selected_locale +:+ ".svg" ∨ filename = "en.svg")
    ∧ (badge_exists (selected_locale +:+ ".svg") = true →
       filename = selected_locale +:+ ".svg").
Proof.
  intros Henglish. unfold apple_store_badge.
  destruct (badge_exists (selected_locale +:+ ".svg")) eqn:Hlocale.
  - exists (selected_locale +:+ ".svg").
    split; [done|]. split; [done|]. split; [by left|done].
  - exists "en.svg".
    split; [done|]. split; [done|]. split; [by right|done].
Qed.

Lemma apple_store_badge_exists_witness :
  apple_store_badge "de"
    (fun filename => String.eqb filename "en.svg" || String.eqb filename "fr.svg")
  = url_for "static" [("filename", "img/apple/en.svg")].
Proof.
  destruct (apple_store_badge_exists "de"
              (fun filename => String.eqb filename "en.svg" || String.eqb filename "fr.svg")
              eq_refl) as (filename & Hbadge & Hexists & [Hf|Hf] & _);
    subst filename.
  - discriminate Hexists.
  - exact Hbadge.
Defined.

(** ** A submission that does not validate *)


